(** * StockfishEngine: the UCI command queue of [src/lib/chess-utils.js]

    A shallow embedding of the [StockfishEngine] class (the engine transport
    of the chess UI) and the properties of its command queue.

    Modelling conventions.
    - A JavaScript string is a [string]; its characters are code units below
      256, which covers the whole UCI vocabulary.
    - A JavaScript function value stored in the engine (the global [stream]
      hook, a command's [callback] and [stream]) is an opaque identifier.
      Calling it is recorded as an [Event]; so are the two calls made on the
      worker, [postMessage] and [terminate].  Callbacks are observers: what a
      callback may itself do to the engine is outside the model.
    - A method that mutates [this] takes the engine and returns the new
      engine together with the events it produced, in order.
    - [commandQueue] is a list; the command object found at [queueIndex] is
      mutated in place, which is written as an update of that index. *)

From Stdlib Require Import ZArith Ascii.
From stdpp Require Import base list strings.

Local Open Scope Z_scope.

(** ** JavaScript string and array primitives used by the class *)

Module JS.

(** The line feed, written ['\n'] in the source. *)
Definition LF : ascii := "010"%char.

(** [s.indexOf(c)] for a one-character needle: -1 when absent. *)
Fixpoint indexOf (c : ascii) (s : string) : Z :=
  match s with
  | EmptyString => -1
  | String a r =>
      if Ascii.eqb a c then 0
      else let i := indexOf c r in if i =? -1 then -1 else 1 + i
  end.

(** [s.substring(0, n)]. *)
Definition substring0 (n : Z) (s : string) : string :=
  String.substring 0 (Z.to_nat n) s.

(** [s.startsWith(p)]. *)
Definition startsWith (p s : string) : bool := String.prefix p s.

(** [s.includes('\n')]. *)
Definition includesLF (s : string) : bool := negb (indexOf LF s =? -1).

(** [s.split('\n')]: never empty, the last piece may be the empty string. *)
Fixpoint splitLF (s : string) : list string :=
  match s with
  | EmptyString => [EmptyString]
  | String a r =>
      if Ascii.eqb a LF then EmptyString :: splitLF r
      else match splitLF r with
           | h :: t => String a h :: t
           | [] => [String a EmptyString]
           end
  end.

(** White space of [String.prototype.trim] among the code units below 256:
    TAB, LF, VT, FF, CR, SP and NBSP. *)
Definition isWhiteSpace (a : ascii) : bool :=
  let n := nat_of_ascii a in
  ((9 <=? n)%nat && (n <=? 13)%nat) || (n =? 32)%nat || (n =? 160)%nat.

Fixpoint trimStart (s : string) : string :=
  match s with
  | EmptyString => EmptyString
  | String a r => if isWhiteSpace a then trimStart r else s
  end.

(** Drops trailing white space: a character stays when it is not white
    space or when something stays after it. *)
Fixpoint trimEnd (s : string) : string :=
  match s with
  | EmptyString => EmptyString
  | String a r =>
      match trimEnd r with
      | EmptyString => if isWhiteSpace a then EmptyString else String a EmptyString
      | r' => String a r'
      end
  end.

(** [s.trim()]. *)
Definition trim (s : string) : string := trimEnd (trimStart s).

(** A string used as a condition: the empty string is falsy. *)
Definition truthy (s : string) : bool := negb (String.eqb s EmptyString).

(** [arr.includes(x)] on an array of strings. *)
Definition includes (arr : list string) (x : string) : bool :=
  existsb (String.eqb x) arr.

(** [arr.findIndex(p)]: -1 when no element satisfies [p]. *)
Fixpoint findIndex {A} (p : A -> bool) (arr : list A) : Z :=
  match arr with
  | [] => -1
  | x :: r =>
      if p x then 0
      else let i := findIndex p r in if i =? -1 then -1 else 1 + i
  end.

(** [n || d] on numbers: [n] unless it is 0, the only falsy integer. *)
Definition orElse (n d : Z) : Z := if n =? 0 then d else n.

(** [arr[i]] for an integer [i]: [undefined] outside [0 .. length-1],
    negative indices included. *)
Definition at_ {A} (arr : list A) (i : Z) : option A :=
  if i <? 0 then None else arr !! Z.to_nat i.

End JS.

(** ** Data model *)

(** The identity of a JavaScript function value. *)
Definition Callback := nat.

(** An entry of [commandQueue], as built by [send]; [discard] is read by
    [handleMessage] and absent (falsy) on the entries [send] builds. *)
Module Command.
Record t := mk {
  cmd : string;
  callback : option Callback;
  stream : option Callback;
  message : string;
  discard : bool
}.

Definition set_message (m : string) (c : t) : t :=
  mk (cmd c) (callback c) (stream c) m (discard c).
End Command.

(** The fields of a [StockfishEngine] that the methods read or write.
    [worker] is [None] for [null]; [started] is never read. *)
Record Engine := mkEngine {
  worker : option unit;
  commandQueue : list Command.t;
  loaded : bool;
  ready : bool;
  stream : option Callback
}.

Definition set_worker (w : option unit) (e : Engine) : Engine :=
  mkEngine w (commandQueue e) (loaded e) (ready e) (stream e).
Definition set_commandQueue (q : list Command.t) (e : Engine) : Engine :=
  mkEngine (worker e) q (loaded e) (ready e) (stream e).
Definition set_loaded (b : bool) (e : Engine) : Engine :=
  mkEngine (worker e) (commandQueue e) b (ready e) (stream e).
Definition set_ready (b : bool) (e : Engine) : Engine :=
  mkEngine (worker e) (commandQueue e) (loaded e) b (stream e).

(** What the engine does to the outside: calls of stored functions and of
    the worker's methods. *)
Inductive Event :=
| EStream (f : Callback) (line : string)          (* this.stream(line) *)
| ECommandStream (f : Callback) (line : string)   (* command.stream(line) *)
| ECallback (f : Callback) (message : string)     (* command.callback(command.message) *)
| EPostMessage (cmd : string)                     (* this.worker.postMessage(cmd) *)
| ETerminate.                                     (* this.worker.terminate() *)

(** How a call of [send] ends. *)
Inductive Outcome :=
| Returned
| ThrewTypeError.   (* reading [postMessage] of [null] *)

(** ** The methods *)

(** [getFirstWord(line)]. *)
Definition getFirstWord (line : string) : string :=
  let spaceIndex := JS.indexOf " "%char line in
  if spaceIndex =? -1 then line else JS.substring0 spaceIndex line.

(** The [cmdType] that [determineQueueIndex] derives from a line. *)
Definition cmdTypeOf (line : string) : string :=
  let firstWord := getFirstWord line in
  if JS.includes ["uciok"; "option"] firstWord then "uci"
  else if String.eqb firstWord "readyok" then "isready"
  else if JS.includes ["bestmove"; "info"] firstWord then "go"
  else "other".

(** The predicate given to [findIndex] in [determineQueueIndex]. *)
Definition matchesType (cmdType : string) (item : Command.t) : bool :=
  let cmdFirstWord := getFirstWord (Command.cmd item) in
  String.eqb cmdFirstWord cmdType
  || (String.eqb cmdType "other" && JS.includes ["d"; "eval"] cmdFirstWord).

(** [determineQueueIndex(line)], on the queue. *)
Definition determineQueueIndex (line : string) (queue : list Command.t) : Z :=
  match queue with
  | [] => 0
  | firstCommand :: _ =>
      if String.eqb (Command.cmd firstCommand) "bench"
         || String.eqb (Command.cmd firstCommand) "perft"
      then 0
      else JS.orElse (JS.findIndex (matchesType (cmdTypeOf line)) queue) 0
  end.

(** [evalRegex.test(s)] for [/Total Evaluation[\s\S]+\n$/]: the matcher
    tries each start position in turn; at a position it reads the literal,
    then one or more characters of any kind, then a line feed on which the
    input ends (no [m] flag, so [$] is the end of the input). *)
Fixpoint stripLiteral (lit s : string) : option string :=
  match lit, s with
  | EmptyString, _ => Some s
  | String a lit', String b s' => if Ascii.eqb a b then stripLiteral lit' s' else None
  | String _ _, EmptyString => None
  end.

Fixpoint endsWithLF (s : string) : bool :=
  match s with
  | EmptyString => false
  | String a EmptyString => Ascii.eqb a JS.LF
  | String _ r => endsWithLF r
  end.

Definition evalRegex_at (s : string) : bool :=
  match stripLiteral "Total Evaluation" s with
  | Some (String _ r) => endsWithLF r
  | _ => false
  end.

Fixpoint evalRegex_test (s : string) : bool :=
  evalRegex_at s
  || match s with
     | EmptyString => false
     | String _ r => evalRegex_test r
     end.

(** [isCommandComplete(line, command)]: the answer, the command object
    (its [message] may be replaced) and the engine (a flag may be set). *)
Definition isCommandComplete (line : string) (command : Command.t) (e : Engine)
  : bool * Command.t * Engine :=
  if String.eqb line "uciok" then (true, command, set_loaded true e)
  else if String.eqb line "readyok" then (true, command, set_ready true e)
  else if JS.startsWith "bestmove" line
          && negb (String.eqb (Command.cmd command) "bench")
  then (true, Command.set_message line command, e)
  else if String.eqb (Command.cmd command) "d"
  then (JS.startsWith "Legal uci moves" line || JS.startsWith "Key is" line,
        command, e)
  else if String.eqb (Command.cmd command) "eval"
  then (evalRegex_test (Command.message command), command, e)
  else (existsb (fun prefix => JS.startsWith prefix line)
          ["pawn key"; "Nodes/second"; "Unknown command"],
        command, e).

(** [if (this.stream) this.stream(line)]. *)
Definition streamEvents (e : Engine) (line : string) : list Event :=
  match stream e with
  | Some f => [EStream f line]
  | None => []
  end.

(** [if (command.stream) command.stream(line)]. *)
Definition commandStreamEvents (command : Command.t) (line : string) : list Event :=
  match Command.stream command with
  | Some f => [ECommandStream f line]
  | None => []
  end.

(** [if (command.callback && !command.discard) command.callback(command.message)]. *)
Definition callbackEvents (command : Command.t) : list Event :=
  match Command.callback command with
  | Some f => if Command.discard command then [] else [ECallback f (Command.message command)]
  | None => []
  end.

(** [command.message ? `${command.message}\n${line}` : line]. *)
Definition buildMessage (message line : string) : string :=
  if JS.truthy message then message +:+ String JS.LF line else line.

(** The lines that are never attributed to a command. *)
Definition isSystemMessage (line : string) : bool :=
  JS.startsWith "No such option" line
  || JS.startsWith "id " line
  || JS.startsWith "Stockfish" line.

(** The body of [handleMessage] below the multi-line branch: what happens to
    a line without a line feed. The command object is the queue's own, so
    its new [message] is the one the queue holds afterwards, unless the
    command is spliced out. *)
Definition handleLine (line : string) (e : Engine) : Engine * list Event :=
  let streamed := streamEvents e line in
  if (length (commandQueue e) =? 0)%nat || isSystemMessage line
  then (e, streamed)
  else
    let queueIndex := determineQueueIndex line (commandQueue e) in
    match JS.at_ (commandQueue e) queueIndex with
    | None => (e, streamed)
    | Some command =>
        let cstreamed := commandStreamEvents command line in
        let command := Command.set_message (buildMessage (Command.message command) line) command in
        let '(isComplete, command, e) := isCommandComplete line command e in
        if isComplete
        then (set_commandQueue (delete (Z.to_nat queueIndex) (commandQueue e)) e,
              streamed ++ cstreamed ++ callbackEvents command)
        else (set_commandQueue (<[Z.to_nat queueIndex := command]> (commandQueue e)) e,
              streamed ++ cstreamed)
    end.

(** [handleMessage(event)] for a string event. The method calls itself on
    the pieces of a multi-line payload; [fuel] bounds the depth of these
    calls, and [None] means the bound was reached. *)
Fixpoint handleMessage_fuel (fuel : nat) (line : string) (e : Engine)
  : option (Engine * list Event) :=
  match fuel with
  | O => None
  | S fuel' =>
      if JS.includesLF line
      then
        foldl (fun acc subLine =>
                 match acc with
                 | None => None
                 | Some (e1, evs) =>
                     if JS.truthy (JS.trim subLine)
                     then match handleMessage_fuel fuel' subLine e1 with
                          | Some (e2, evs') => Some (e2, evs ++ evs')
                          | None => None
                          end
                     else Some (e1, evs)
                 end)
              (Some (e, [])) (JS.splitLF line)
      else Some (handleLine line e)
  end.

(** [handleMessage(event)]: the calls on the pieces of a payload never
    reach a third level, so a depth of two is all the method uses. *)
Definition handleMessage (line : string) (e : Engine) : Engine * list Event :=
  match handleMessage_fuel 2 line e with
  | Some r => r
  | None => (e, [])
  end.

(** Line arrivals one after the other: [handleMessage] is called once for
    each, on the engine the previous call left. *)
Definition arrive (acc : Engine * list Event) (line : string) : Engine * list Event :=
  let '(e2, evs') := handleMessage line acc.1 in (e2, acc.2 ++ evs').

Definition deliver (lines : list string) (e : Engine) : Engine * list Event :=
  foldl arrive (e, []) lines.

(** [send(command, callback, stream)]. *)
Definition immediateCommands : list string :=
  ["ucinewgame"; "flip"; "stop"; "ponderhit"].

Definition needsQueue (cmd : string) : bool :=
  negb (JS.includes immediateCommands cmd)
  && negb (JS.startsWith "position" cmd)
  && negb (JS.startsWith "setoption" cmd).

Definition send (command : string) (callback stream : option Callback) (e : Engine)
  : Engine * list Event * Outcome :=
  let cmd := JS.trim command in
  let e :=
    if needsQueue cmd
    then set_commandQueue (commandQueue e ++ [Command.mk cmd callback stream "" false]) e
    else e in
  match worker e with
  | Some _ => (e, [EPostMessage cmd], Returned)
  | None => (e, [], ThrewTypeError)
  end.

(** [quit()]. *)
Definition quit (e : Engine) : Engine * list Event :=
  match worker e with
  | Some _ => (set_loaded false (set_ready false (set_worker None e)), [ETerminate])
  | None => (e, [])
  end.

(** The engine as the constructor leaves it. *)
Definition newEngine : Engine := mkEngine (Some tt) [] false false None.

(** A fresh engine with a global stream hook. *)
Definition streamingEngine (f : Callback) : Engine :=
  mkEngine (Some tt) [] false false (Some f).

(** [engine.send('go depth 10', callback 1, stream 2)] on a fresh engine
    whose global stream hook is function 0. *)
Definition goEngine : Engine :=
  (send "go depth 10" (Some 1%nat) (Some 2%nat) (streamingEngine 0%nat)).1.1.

(** [engine.send('eval', callback 1)] on a fresh engine, after the line
    [Total Evaluation: 0.12 (white side)] has arrived. *)
Definition evalEngine : Engine :=
  (deliver ["Total Evaluation: 0.12 (white side)"]
     (send "eval" (Some 1%nat) None newEngine).1.1).1.

(** Two [go] commands sent one after the other, without waiting. *)
Definition twoGoEngine : Engine :=
  (send "go depth 10" (Some 3%nat) (Some 4%nat)
     (send "go depth 5" (Some 1%nat) (Some 2%nat) newEngine).1.1).1.1.

(** [bench] sent first, then the two [go] commands. *)
Definition benchGoGoEngine : Engine :=
  (send "go depth 10" (Some 3%nat) (Some 4%nat)
     (send "go depth 5" (Some 1%nat) (Some 2%nat)
        (send "bench" None None newEngine).1.1).1.1).1.1.

(** Lines joined by line feeds into one payload. *)
Definition joinLF (lines : list string) : string :=
  String.concat (String JS.LF EmptyString) lines.

(** The queue index a line without line feed is attributed to by
    [handleMessage]: none for a filtered line, an empty queue, or an index
    at which the queue has no entry. *)
Definition attributed (line : string) (e : Engine) : option nat :=
  if (length (commandQueue e) =? 0)%nat || isSystemMessage line then None
  else
    let queueIndex := determineQueueIndex line (commandQueue e) in
    match JS.at_ (commandQueue e) queueIndex with
    | Some _ => Some (Z.to_nat queueIndex)
    | None => None
    end.

(** The effect of a line on the command it is attributed to. *)
Definition handleAttributed (line : string) (e : Engine) (k : nat) (command : Command.t)
  : Engine * list Event :=
  let command1 :=
    Command.set_message (buildMessage (Command.message command) line) command in
  let '(isComplete, command2, e2) := isCommandComplete line command1 e in
  if isComplete
  then (set_commandQueue (delete k (commandQueue e2)) e2,
        streamEvents e line ++ commandStreamEvents command line ++ callbackEvents command2)
  else (set_commandQueue (<[k := command2]> (commandQueue e2)) e2,
        streamEvents e line ++ commandStreamEvents command line).

(** The head-of-queue guard of [determineQueueIndex]. *)
Definition headIsBenchOrPerft (queue : list Command.t) : bool :=
  match queue with
  | [] => false
  | firstCommand :: _ =>
      String.eqb (Command.cmd firstCommand) "bench"
      || String.eqb (Command.cmd firstCommand) "perft"
  end.

(** The buffer matches [evalRegex], in the words of the pattern: a block
    that begins with the literal and runs to the end of the buffer, where
    it ends with at least one more character and a final line feed. *)
Definition EvalBlock (buffer : string) : Prop :=
  exists before block,
    buffer = before +:+ "Total Evaluation" +:+ block +:+ String JS.LF EmptyString
    /\ block <> EmptyString.

(** A command text that [send] does not queue, in the words of the
    queuing rule. *)
Definition Immediate (cmd : string) : Prop :=
  cmd = "ucinewgame" \/ cmd = "flip" \/ cmd = "stop" \/ cmd = "ponderhit"
  \/ (exists rest, cmd = "position" +:+ rest)
  \/ (exists rest, cmd = "setoption" +:+ rest).

(** Two results of handling lines that agree on what callers and callbacks
    can see of the queue: the queue itself, the stream hook and the events. *)
Definition sameQueue (r r' : Engine * list Event) : Prop :=
  commandQueue r.1 = commandQueue r'.1 /\ stream r.1 = stream r'.1 /\ r.2 = r'.2.

(** A sub-line that the multi-line branch of [handleMessage] skips. *)
Definition blank (subLine : string) : bool := negb (JS.truthy (JS.trim subLine)).

(** ** The rest of [chess-utils.js] and the callers of the engine *)

(** [isEnginesTurn(playerColor, currentTurn)]. *)
Definition isEnginesTurn (playerColor currentTurn : string) : bool :=
  (String.eqb playerColor "white" && String.eqb currentTurn "b")
  || (String.eqb playerColor "black" && String.eqb currentTurn "w").

(** [engine.stream = f], the assignment by which callers install the
    global hook. *)
Definition set_stream (f : option Callback) (e : Engine) : Engine :=
  mkEngine (worker e) (commandQueue e) (loaded e) (ready e) f.

(** What [send] and [handleMessage] never change in a queued command. *)
Definition identity (c : Command.t)
  : string * option Callback * option Callback * bool :=
  (Command.cmd c, Command.callback c, Command.stream c, Command.discard c).

(** What handling lines may do to an engine: the worker and the stream hook
    stay, a flag that is set stays set, and the queue keeps its commands
    in their order, up to their messages, except those that left. *)
Definition framed (e e' : Engine) : Prop :=
  worker e' = worker e
  /\ stream e' = stream e
  /\ (loaded e = true -> loaded e' = true)
  /\ (ready e = true -> ready e' = true)
  /\ (identity <$> commandQueue e') `sublist_of` (identity <$> commandQueue e).

(** The lines given to the global stream hook, in order. *)
Definition streamedLines (evs : list Event) : list string :=
  omap (fun ev => match ev with EStream _ line => Some line | _ => None end) evs.

(** The calls made on the worker, in order. *)
Definition workerCalls (evs : list Event) : list Event :=
  List.filter (fun ev => match ev with
                         | EPostMessage _ | ETerminate => true
                         | _ => false
                         end) evs.

(** The single lines [handleMessage] works through for a payload. *)
Definition linesOf (payload : string) : list string :=
  if JS.includesLF payload
  then List.filter (fun subLine => JS.truthy (JS.trim subLine)) (JS.splitLF payload)
  else [payload].

(** What a caller and the worker can do to an engine, one step at a
    time: install a stream hook, call [send] (an exception it throws is the
    caller's to catch), deliver a payload, call [quit]. *)
Inductive Op :=
| OpStream (f : option Callback)
| OpSend (command : string) (callback stream : option Callback)
| OpMessage (payload : string)
| OpQuit.

Definition step (op : Op) (e : Engine) : Engine * list Event :=
  match op with
  | OpStream f => (set_stream f e, [])
  | OpSend command callback stream =>
      let '(e1, evs, _) := send command callback stream e in (e1, evs)
  | OpMessage payload => handleMessage payload e
  | OpQuit => quit e
  end.

(** A session: the steps in order, with all the events they produce. *)
Definition session (ops : list Op) (e : Engine) : Engine * list Event :=
  foldl (fun acc op => ((step op acc.1).1, acc.2 ++ (step op acc.1).2)) (e, []) ops.

(** The trimmed texts of the [send] calls of a session, in order. *)
Definition sentTexts (ops : list Op) : list string :=
  omap (fun op => match op with
                  | OpSend command _ _ => Some (JS.trim command)
                  | _ => None
                  end) ops.

Definition hasQuit (ops : list Op) : bool :=
  existsb (fun op => match op with OpQuit => true | _ => false end) ops.

(** A queue entry as [send] leaves it, whatever its message. *)
Definition asSentId (i : string * option Callback * option Callback * bool) : Prop :=
  needsQueue i.1.1.1 = true /\ JS.trim i.1.1.1 = i.1.1.1 /\ i.2 = false.

Definition asSent (c : Command.t) : Prop := asSentId (identity c).

(** A queued command that no line can be attributed to: its first word is
    none of the words [determineQueueIndex] looks for, and its text is not
    one that the head-of-queue guard accepts. *)
Definition unanswerable (c : Command.t) : bool :=
  negb (JS.includes ["uci"; "isready"; "go"; "other"; "d"; "eval"]
          (getFirstWord (Command.cmd c)))
  && negb (String.eqb (Command.cmd c) "bench")
  && negb (String.eqb (Command.cmd c) "perft").

(** ** [useStockfishEngine]: the move in a [bestmove] result *)

(** [\w]. *)
Definition isWordChar (a : ascii) : bool :=
  let n := nat_of_ascii a in
  ((48 <=? n)%nat && (n <=? 57)%nat)
  || ((65 <=? n)%nat && (n <=? 90)%nat)
  || ((97 <=? n)%nat && (n <=? 122)%nat)
  || (n =? 95)%nat.

(** The longest run of word characters at the start: what a greedy [\w+]
    takes when nothing follows it in the pattern. *)
Fixpoint takeWord (s : string) : string :=
  match s with
  | EmptyString => EmptyString
  | String a r => if isWordChar a then String a (takeWord r) else EmptyString
  end.

(** A text made of word characters only. *)
Fixpoint allWordChars (s : string) : bool :=
  match s with
  | EmptyString => true
  | String a r => isWordChar a && allWordChars r
  end.

Definition matchBestmoveAt (s : string) : option string :=
  match stripLiteral "bestmove " s with
  | Some t => if JS.truthy (takeWord t) then Some (takeWord t) else None
  | None => None
  end.

(** Group 1 of [result.match(/bestmove (\w+)/)]: the match at the leftmost
    start position that has one. *)
Fixpoint matchBestmove (result : string) : option string :=
  match matchBestmoveAt result with
  | Some moveStr => Some moveStr
  | None =>
      match result with
      | EmptyString => None
      | String _ r => matchBestmove r
      end
  end.

(** The argument of [chessGame.move] in the callback of [makeEngineMove];
    [promotion] is [None] for [undefined]. *)
Record EngineMove := mkEngineMove {
  from : string;
  to : string;
  promotion : option string
}.

Definition engineMoveOf (result : string) : option EngineMove :=
  match matchBestmove result with
  | Some moveStr =>
      Some (mkEngineMove
              (String.substring 0 2 moveStr)
              (String.substring 2 2 moveStr)
              (if (4 <? String.length moveStr)%nat
               then Some (String.substring 4 (String.length moveStr - 4) moveStr)
               else None))
  | None => None
  end.

(** The function [f] is given to unanswerable commands only: as callback
    or stream function of a queued command, and in a [send] call. *)
Definition onlyUnanswerable (f : Callback) (c : Command.t) : Prop :=
  Command.callback c = Some f \/ Command.stream c = Some f -> unanswerable c = true.

Definition sendsOnlyUnanswerable (f : Callback) (op : Op) : Prop :=
  match op with
  | OpSend command callback stream =>
      onlyUnanswerable f (Command.mk (JS.trim command) callback stream "" false)
  | _ => True
  end.

(** The event is a call of [f] as the callback or the stream function of a
    command. *)
Definition callsCommandFunction (f : Callback) (ev : Event) : Prop :=
  match ev with
  | ECallback g _ | ECommandStream g _ => g = f
  | _ => False
  end.

(** The state of the hook [useStockfishEngine]. *)
Module UseStockfishEngine.

Record t := mk {
  engineRef : option Engine;
  engineLoaded : bool;
  isThinking : bool
}.

(** [makeEngineMove(chessGame, onMoveComplete)]: [isGameOver] and [fen]
    are what [chessGame.isGameOver()] and [chessGame.fen()] answer,
    [depth] is [engineDepth] as the template literal prints it, and
    [onResult] is the identity of the callback given to the second
    [send]. An exception of [send] leaves the function at that call. *)
Definition makeEngineMove (isGameOver : bool) (fen depth : string)
    (onResult : Callback) (h : t) : t * list Event :=
  match engineRef h with
  | None => (h, [])
  | Some engine =>
      if negb (engineLoaded h) || isGameOver then (h, [])
      else
        match send ("position fen " +:+ fen) None None engine with
        | (engine1, evs1, ThrewTypeError) =>
            (mk (Some engine1) (engineLoaded h) true, evs1)
        | (engine1, evs1, Returned) =>
            let '(engine2, evs2, _) :=
              send ("go depth " +:+ depth) (Some onResult) None engine1 in
            (mk (Some engine2) (engineLoaded h) true, evs1 ++ evs2)
        end
  end.

End UseStockfishEngine.

(** ** [useStockfish]: the hook of the engine console *)

Module UseStockfish.

Record t := mk {
  engineRef : option Engine;
  isLoaded : bool;
  isReady : bool;
  output : string;
  error : option string
}.

(** The hook before its effect has run. *)
Definition initial : t := mk None false false "" None.

(** The identity of the function assigned to [engine.stream]. *)
Definition streamHook : Callback := 0%nat.

(** [appendOutput(text)]. *)
Definition appendOutput (text : string) (h : t) : t :=
  mk (engineRef h) (isLoaded h) (isReady h)
     (if JS.truthy (output h) then output h +:+ String JS.LF text else text)
     (error h).

(** The body of the function assigned to [engine.stream]. *)
Definition onStream (line : string) (h : t) : t :=
  let h := appendOutput line h in
  if String.eqb line "uciok"
  then mk (engineRef h) true true (output h) (error h)
  else if String.eqb line "readyok"
  then mk (engineRef h) (isLoaded h) true (output h) (error h)
  else h.

(** [initializeEngine()]; [workerSupported] says whether [Worker] is a
    function, without which the constructor throws. *)
Definition initializeEngine (workerSupported : bool) (h : t) : t * list Event :=
  if workerSupported
  then
    let engine := set_stream (Some streamHook) newEngine in
    let '(engine, evs, _) := send "uci" None None engine in
    (mk (Some engine) (isLoaded h) (isReady h) (output h) (error h), evs)
  else
    (mk (engineRef h) (isLoaded h) (isReady h) (output h)
        (Some "Failed to initialize Stockfish engine: Web Workers not supported in this environment"),
     []).

(** [sendCommand(command, callback, stream)]. *)
Definition sendCommand (command : string) (callback stream : option Callback) (h : t)
  : t * list Event :=
  match engineRef h with
  | None => (mk None (isLoaded h) (isReady h) (output h) (Some "Engine not loaded"), [])
  | Some engine =>
      let '(engine, evs, _) := send command callback stream engine in
      (mk (Some engine) (isLoaded h) (isReady h) (output h) (error h), evs)
  end.

(** [quit()]. *)
Definition quit (h : t) : t * list Event :=
  match engineRef h with
  | Some engine => (mk None false false (output h) (error h), (quit engine).2)
  | None => (h, [])
  end.

(** A payload from the worker: the engine handles it, and the stream hook
    runs on every line the engine streams. *)
Definition onmessage (payload : string) (h : t) : t * list Event :=
  match engineRef h with
  | Some engine =>
      let '(engine, evs) := handleMessage payload engine in
      (foldl (fun h line => onStream line h)
         (mk (Some engine) (isLoaded h) (isReady h) (output h) (error h))
         (streamedLines evs),
       evs)
  | None => (h, [])
  end.

End UseStockfish.

(** ** [StockfishInterface]: the command history of the console *)

Module Console.

(** [arr.slice(-n)]: the last [n] elements, all of them when there are
    fewer. *)
Definition sliceLast {A} (n : nat) (arr : list A) : list A :=
  drop (length arr - n) arr.

(** The update given to [setCommandHistory] in [handleSendCommand]. *)
Definition newHistory (trimmedCommand : string) (prev : list string) : list string :=
  sliceLast 50 (filter (fun cmd => cmd <> trimmedCommand) prev ++ [trimmedCommand]).

(** The state of the input line; [command] is [None] when it has been set
    to [undefined]. *)
Record t := mk {
  command : option string;
  commandHistory : list string;
  historyIndex : Z
}.

Definition initial : t := mk (Some EmptyString) [] (-1).

(** [handleKeyDown] for [ArrowUp]. *)
Definition arrowUp (s : t) : t :=
  if (0 <? length (commandHistory s))%nat
  then
    let newIndex :=
      if historyIndex s =? -1
      then Z.of_nat (length (commandHistory s)) - 1
      else Z.max 0 (historyIndex s - 1) in
    mk (JS.at_ (commandHistory s) newIndex) (commandHistory s) newIndex
  else s.

(** [handleKeyDown] for [ArrowDown]. *)
Definition arrowDown (s : t) : t :=
  if 0 <=? historyIndex s
  then
    let newIndex := historyIndex s + 1 in
    if Z.of_nat (length (commandHistory s)) <=? newIndex
    then mk (Some EmptyString) (commandHistory s) (-1)
    else mk (JS.at_ (commandHistory s) newIndex) (commandHistory s) newIndex
  else s.

(** [handleSendCommand()]: the new state and the text handed to
    [sendCommand], if any. On an undefined input [command.trim()] throws
    before anything is updated. *)
Definition handleSendCommand (isLoaded : bool) (s : t) : t * option string :=
  match command s with
  | Some text =>
      if negb (JS.truthy (JS.trim text)) || negb isLoaded then (s, None)
      else
        let trimmedCommand := JS.trim text in
        (mk (Some EmptyString) (newHistory trimmedCommand (commandHistory s)) (-1),
         Some trimmedCommand)
  | None => (s, None)
  end.

(** What the key handlers keep: the index is -1 or points into the
    history, and the input is defined. *)
Definition inv (s : t) : Prop :=
  -1 <= historyIndex s < Z.of_nat (length (commandHistory s))
  /\ command s <> None.

End Console.

(** ** Facts about the string primitives *)

Section Strings.

Lemma startsWith_app (p r : string) : JS.startsWith p (p +:+ r) = true.
Proof.
  unfold JS.startsWith. induction p as [|a p IH]; simpl.
  - by destruct r.
  - destruct (ascii_dec a a); [exact IH | done].
Qed.

Lemma startsWith_inv (p s : string) :
  JS.startsWith p s = true -> exists r, s = p +:+ r.
Proof.
  unfold JS.startsWith. revert s. induction p as [|a p IH]; intros s H.
  - by exists s.
  - destruct s as [|b s]; simpl in H; [done|].
    destruct (ascii_dec a b) as [->|]; [|done].
    destruct (IH s H) as [r ->]. by exists r.
Qed.

Lemma indexOf_range (c : ascii) (s : string) :
  JS.indexOf c s = -1 \/ 0 <= JS.indexOf c s.
Proof.
  induction s as [|a s IH]; simpl; [by left|].
  destruct (Ascii.eqb a c); [right; lia|].
  destruct (Z.eqb_spec (JS.indexOf c s) (-1)); [by left | right; lia].
Qed.

Lemma substring0_split (c : ascii) (s : string) :
  0 <= JS.indexOf c s ->
  exists r, s = JS.substring0 (JS.indexOf c s) s +:+ r.
Proof.
  unfold JS.substring0. induction s as [|a s IH]; simpl; [lia|].
  destruct (Ascii.eqb a c).
  - intros _. by exists (String a s).
  - destruct (Z.eqb_spec (JS.indexOf c s) (-1)) as [|Hne]; [lia|]. intros _.
    destruct (indexOf_range c s) as [|Hge]; [done|].
    destruct (IH Hge) as [r Hr]. exists r.
    replace (Z.to_nat (1 + JS.indexOf c s)) with (S (Z.to_nat (JS.indexOf c s))) by lia.
    exact (f_equal (String a) Hr).
Qed.

(** A line is its first word followed by the rest. *)
Lemma getFirstWord_split (line : string) :
  exists r, line = getFirstWord line +:+ r.
Proof.
  unfold getFirstWord.
  destruct (Z.eqb_spec (JS.indexOf " " line) (-1)) as [|Hne].
  - exists EmptyString. clear.
    induction line as [|a l IH]; [done | exact (f_equal (String a) IH)].
  - destruct (indexOf_range " " line); [done|]. by apply substring0_split.
Qed.

Lemma includesLF_cons (a : ascii) (s : string) :
  JS.includesLF (String a s) = Ascii.eqb a JS.LF || JS.includesLF s.
Proof.
  unfold JS.includesLF. simpl. destruct (Ascii.eqb a JS.LF); [done|].
  simpl. destruct (Z.eqb_spec (JS.indexOf JS.LF s) (-1)); [done|].
  destruct (indexOf_range JS.LF s); [done|].
  destruct (Z.eqb_spec (1 + JS.indexOf JS.LF s) (-1)); [lia|done].
Qed.

(** The pieces of [split] hold no line feed. *)
Lemma splitLF_pieces (s : string) :
  Forall (fun piece => JS.includesLF piece = false) (JS.splitLF s).
Proof.
  induction s as [|a s IH]; simpl.
  - by repeat constructor.
  - destruct (Ascii.eqb a JS.LF) eqn:Ha.
    + by constructor.
    + destruct (JS.splitLF s) as [|h t].
      * constructor; [|constructor]. by rewrite includesLF_cons, Ha.
      * inversion IH; subst. constructor; [|done].
        by rewrite includesLF_cons, Ha.
Qed.

Lemma splitLF_single (s : string) :
  JS.includesLF s = false -> JS.splitLF s = [s].
Proof.
  induction s as [|a s IH]; [done|].
  rewrite includesLF_cons. simpl. destruct (Ascii.eqb a JS.LF); [done|].
  simpl. intros H. by rewrite (IH H).
Qed.

End Strings.

(** ** The pattern of [evalRegex] *)

Section EvalRegex.

Lemma append_cons (a : ascii) (s t : string) :
  String a s +:+ t = String a (s +:+ t).
Proof. reflexivity. Qed.

Lemma append_assoc (s t u : string) : (s +:+ t) +:+ u = s +:+ t +:+ u.
Proof.
  induction s as [|a s IH]; [done|].
  rewrite !append_cons. by rewrite IH.
Qed.

Lemma stripLiteral_spec (lit s t : string) :
  stripLiteral lit s = Some t <-> s = lit +:+ t.
Proof.
  revert s. induction lit as [|a lit IH]; intros s; simpl.
  - change (EmptyString +:+ t) with t. split; congruence.
  - rewrite append_cons. destruct s as [|b s]; [split; discriminate|].
    destruct (Ascii.eqb_spec a b) as [->|Hne].
    + rewrite IH. split; congruence.
    + split; [discriminate | congruence].
Qed.

Lemma endsWithLF_spec (s : string) :
  endsWithLF s = true <-> exists m, s = m +:+ String JS.LF EmptyString.
Proof.
  induction s as [|a s IH].
  - split; [discriminate|]. intros [[|b m] H]; discriminate.
  - destruct s as [|b s].
    + simpl. split.
      * intros H%Ascii.eqb_eq. subst. by exists EmptyString.
      * intros [[|c m] H].
        -- injection H as ->. apply Ascii.eqb_refl.
        -- rewrite append_cons in H. injection H as _ H.
           destruct m; discriminate.
    + change (endsWithLF (String a (String b s))) with (endsWithLF (String b s)).
      rewrite IH. split.
      * intros [m ->]. by exists (String a m).
      * intros [[|c m] H]; [discriminate|].
        rewrite append_cons in H. injection H as _ H. by exists m.
Qed.

Lemma evalRegex_at_spec (s : string) :
  evalRegex_at s = true <->
  exists block, s = "Total Evaluation" +:+ block +:+ String JS.LF EmptyString
                /\ block <> EmptyString.
Proof.
  unfold evalRegex_at. split.
  - destruct (stripLiteral "Total Evaluation" s) as [[|a r]|] eqn:Hs; try discriminate.
    apply stripLiteral_spec in Hs. intros [m ->]%endsWithLF_spec.
    exists (String a m). split; [exact Hs | discriminate].
  - intros [[|a m] [-> Hne]]; [done|].
    rewrite (append_cons a m).
    rewrite (proj2 (stripLiteral_spec "Total Evaluation" _ _) eq_refl).
    apply endsWithLF_spec. by exists m.
Qed.

(** The matcher accepts exactly the buffers with a trailing evaluation
    block. *)
Lemma evalRegex_test_spec (buffer : string) :
  evalRegex_test buffer = true <-> EvalBlock buffer.
Proof.
  unfold EvalBlock. induction buffer as [|a s IH].
  - split.
    + cbn [evalRegex_test]. rewrite orb_false_r. intros H%evalRegex_at_spec.
      destruct H as [block H]. by exists EmptyString, block.
    + intros [[|b before] [block [H _]]]; discriminate.
  - cbn [evalRegex_test]. rewrite orb_true_iff, IH, evalRegex_at_spec. split.
    + intros [[block H]|[before [block [-> H]]]].
      * by exists EmptyString, block.
      * by exists (String a before), block.
    + intros [[|b before] [block [H Hne]]].
      * left. by exists block.
      * right. rewrite append_cons in H. injection H as _ H.
        by exists before, block.
Qed.

End EvalRegex.

(** ** Attribution: [determineQueueIndex] and the queue *)

Section Attribution.

Implicit Types (queue : list Command.t) (e : Engine) (line : string).

(** [|| 0] changes nothing: the only index it replaces is 0 itself, and
    the -1 of an unsuccessful [findIndex] is truthy. *)
Lemma orElse_zero (n : Z) : JS.orElse n 0 = n.
Proof. unfold JS.orElse. by destruct (Z.eqb_spec n 0). Qed.

Lemma findIndex_range {A} (p : A -> bool) (arr : list A) :
  JS.findIndex p arr = -1 \/ 0 <= JS.findIndex p arr < Z.of_nat (length arr).
Proof.
  induction arr as [|x r IH]; simpl; [by left|].
  destruct (p x); [right; lia|].
  destruct (Z.eqb_spec (JS.findIndex p r) (-1)); [by left | right; lia].
Qed.

Lemma findIndex_none {A} (p : A -> bool) (arr : list A) :
  JS.findIndex p arr = -1 <-> Forall (fun x => p x = false) arr.
Proof.
  induction arr as [|x r IH]; simpl; [by split|].
  destruct (p x) eqn:Hx.
  - split; [lia|]. intros H. inversion H; congruence.
  - destruct (Z.eqb_spec (JS.findIndex p r) (-1)) as [Heq|Hne].
    + split; [|done]. intros _. constructor; [done|]. by apply IH.
    + destruct (findIndex_range p r) as [|Hr]; [done|]. split; [lia|].
      intros Hall. inversion Hall; subst. exfalso. by apply Hne, IH.
Qed.

(** A found index is that of the first element that satisfies [p]. *)
Lemma findIndex_first {A} (p : A -> bool) (arr : list A) (k : nat) :
  JS.findIndex p arr = Z.of_nat k <->
  (exists x, arr !! k = Some x /\ p x = true)
  /\ (forall j y, (j < k)%nat -> arr !! j = Some y -> p y = false).
Proof.
  revert k. induction arr as [|x r IH]; intros k; simpl.
  - split; [lia|]. by intros [[y [H _]] _].
  - destruct (p x) eqn:Hx.
    + split.
      * intros H. assert (k = 0%nat) as -> by lia.
        split; [by exists x | intros; lia].
      * intros [_ H]. destruct k as [|k]; [done|].
        specialize (H 0%nat x ltac:(lia) eq_refl). congruence.
    + destruct (Z.eqb_spec (JS.findIndex p r) (-1)) as [Heq|Hne].
      * split; [lia|]. intros [[y [Hy Hpy]] _].
        destruct k as [|k]; simpl in Hy; [congruence|].
        apply findIndex_none in Heq.
        rewrite Forall_forall in Heq.
        apply list_elem_of_lookup_2, Heq in Hy. congruence.
      * destruct (findIndex_range p r) as [|Hr]; [done|]. split.
        -- intros H. destruct k as [|k]; [lia|].
           assert (JS.findIndex p r = Z.of_nat k) as Hk by lia.
           apply IH in Hk as [Hk1 Hk2]. split; [done|].
           intros [|j] y Hj Hy; simpl in Hy; [congruence|].
           apply (Hk2 j); [lia|done].
        -- intros [[y [Hy Hpy]] Hlt]. destruct k as [|k]; simpl in Hy; [congruence|].
           assert (JS.findIndex p r = Z.of_nat k) as ->; [|lia].
           apply IH. split; [by exists y|].
           intros j z Hj Hz. apply (Hlt (S j)); [lia|done].
Qed.

Lemma at_of_nat {A} (arr : list A) (k : nat) : JS.at_ arr (Z.of_nat k) = arr !! k.
Proof.
  unfold JS.at_. destruct (Z.ltb_spec (Z.of_nat k) 0); [lia|].
  by rewrite Nat2Z.id.
Qed.

Lemma at_minus_one {A} (arr : list A) : JS.at_ arr (-1) = None.
Proof. reflexivity. Qed.

Lemma determineQueueIndex_guarded line queue :
  headIsBenchOrPerft queue = true -> determineQueueIndex line queue = 0.
Proof.
  destruct queue as [|c q]; [done|]. simpl. by intros ->.
Qed.

Lemma determineQueueIndex_unguarded line queue :
  headIsBenchOrPerft queue = false -> queue <> [] ->
  determineQueueIndex line queue = JS.findIndex (matchesType (cmdTypeOf line)) queue.
Proof.
  destruct queue as [|c q]; [done|]. unfold determineQueueIndex, headIsBenchOrPerft.
  intros -> _. apply orElse_zero.
Qed.

(** What an attribution to [k] means in terms of the queue. *)
Lemma attributed_Some line e (k : nat) :
  attributed line e = Some k <->
  isSystemMessage line = false
  /\ is_Some (commandQueue e !! k)
  /\ ((headIsBenchOrPerft (commandQueue e) = true /\ k = 0%nat)
      \/ (headIsBenchOrPerft (commandQueue e) = false
          /\ JS.findIndex (matchesType (cmdTypeOf line)) (commandQueue e) = Z.of_nat k)).
Proof.
  unfold attributed. destruct (commandQueue e) as [|c q] eqn:Hq.
  - simpl. split; [done|]. intros (_ & [x Hx] & _). by destruct k.
  - rewrite <- Hq.
    assert ((length (commandQueue e) =? 0)%nat = false) as -> by by rewrite Hq.
    assert (commandQueue e <> []) as Hne by by rewrite Hq.
    simpl. destruct (isSystemMessage line); [split; [done | by intros [? _]]|].
    destruct (headIsBenchOrPerft (commandQueue e)) eqn:Hg.
    + rewrite determineQueueIndex_guarded by done. rewrite Hq. simpl. split.
      * intros [= <-]. split; [done|]. split; [by eexists|]. by left.
      * intros (_ & _ & [[_ ->]|[? _]]); done.
    + rewrite determineQueueIndex_unguarded by done.
      destruct (findIndex_range (matchesType (cmdTypeOf line)) (commandQueue e)) as [Hf|Hf].
      * rewrite Hf. simpl. split; [done|]. intros (_ & _ & [[? _]|[_ ?]]); [done|lia].
      * set (i := JS.findIndex _ _) in *.
        replace i with (Z.of_nat (Z.to_nat i)) at 1 by lia. rewrite at_of_nat.
        destruct (lookup_lt_is_Some_2 (commandQueue e) (Z.to_nat i) ltac:(lia)) as [x Hx].
        rewrite Hx. split.
        -- intros [= <-]. split; [done|]. split; [by eexists|]. right. split; [done|lia].
        -- intros (_ & _ & [[? _]|[_ Hk]]); [done|]. f_equal. lia.
Qed.

Lemma attributed_None_handleLine line e :
  attributed line e = None -> handleLine line e = (e, streamEvents e line).
Proof.
  unfold attributed, handleLine.
  destruct ((length (commandQueue e) =? 0)%nat || isSystemMessage line); [done|].
  simpl. by destruct (JS.at_ _ _).
Qed.

Lemma attributed_Some_handleLine line e (k : nat) :
  attributed line e = Some k ->
  exists command, commandQueue e !! k = Some command
                  /\ handleLine line e = handleAttributed line e k command.
Proof.
  unfold attributed, handleLine, handleAttributed.
  destruct ((length (commandQueue e) =? 0)%nat || isSystemMessage line); [done|].
  simpl. destruct (JS.at_ _ _) as [command|] eqn:Hat; [|done].
  intros [= <-]. exists command. split; [|done].
  unfold JS.at_ in Hat. by destruct (_ <? 0).
Qed.

End Attribution.

(** ** [handleMessage]: single lines, payloads and sequences of arrivals *)

Section HandleMessage.

Implicit Types (e : Engine) (line : string) (evs : list Event).

Lemma handleMessage_fuel_single (fuel : nat) line e :
  JS.includesLF line = false ->
  handleMessage_fuel (S fuel) line e = Some (handleLine line e).
Proof. intros H. cbn [handleMessage_fuel]. by rewrite H. Qed.

(** On a line without line feed [handleMessage] is [handleLine]. *)
Lemma handleMessage_single line e :
  JS.includesLF line = false -> handleMessage line e = handleLine line e.
Proof. intros H. unfold handleMessage. by rewrite handleMessage_fuel_single. Qed.

Lemma deliver_unfold (lines : list string) e :
  deliver lines e = foldl arrive (e, []) lines.
Proof. reflexivity. Qed.

Lemma foldl_arrive_acc (lines : list string) e evs :
  foldl arrive (e, evs) lines
  = ((foldl arrive (e, []) lines).1, evs ++ (foldl arrive (e, []) lines).2).
Proof.
  revert e evs. induction lines as [|l ls IH]; intros e evs; simpl.
  - by rewrite app_nil_r.
  - unfold arrive at 2 4 6. simpl. destruct (handleMessage l e) as [e2 evs2].
    rewrite (IH e2 (evs ++ evs2)), (IH e2 evs2). simpl. by rewrite app_assoc.
Qed.

Lemma deliver_nil e : deliver [] e = (e, []).
Proof. reflexivity. Qed.

Lemma deliver_cons (l : string) (ls : list string) e :
  deliver (l :: ls) e
  = ((deliver ls (handleMessage l e).1).1,
     (handleMessage l e).2 ++ (deliver ls (handleMessage l e).1).2).
Proof.
  rewrite !deliver_unfold. simpl. unfold arrive at 2. simpl.
  destruct (handleMessage l e) as [e2 evs2]. simpl.
  by rewrite foldl_arrive_acc.
Qed.

(** The loop of the multi-line branch, on pieces without line feed. *)
Lemma forEach_pieces (fuel : nat) (pieces : list string) e evs :
  Forall (fun piece => JS.includesLF piece = false) pieces ->
  foldl (fun acc subLine =>
           match acc with
           | None => None
           | Some (e1, evs1) =>
               if JS.truthy (JS.trim subLine)
               then match handleMessage_fuel (S fuel) subLine e1 with
                    | Some (e2, evs') => Some (e2, evs1 ++ evs')
                    | None => None
                    end
               else Some (e1, evs1)
           end)
        (Some (e, evs)) pieces
  = Some (foldl arrive (e, evs) (List.filter (fun s => negb (blank s)) pieces)).
Proof.
  intros Hall. revert e evs. induction Hall as [|l ls Hl _ IH]; intros e evs; [done|].
  cbn [foldl List.filter]. unfold blank at 1. rewrite negb_involutive.
  destruct (JS.truthy (JS.trim l)); [|apply IH].
  rewrite handleMessage_fuel_single by done. cbn [foldl].
  unfold arrive at 2. cbn [fst snd]. rewrite handleMessage_single by done.
  destruct (handleLine l e) as [e2 evs2]. apply IH.
Qed.

Lemma handleMessage_fuel_multi (fuel : nat) (payload : string) e :
  JS.includesLF payload = true ->
  handleMessage_fuel (S (S fuel)) payload e
  = Some (deliver (List.filter (fun s => negb (blank s)) (JS.splitLF payload)) e).
Proof.
  intros H. cbn [handleMessage_fuel]. rewrite H.
  apply (forEach_pieces fuel), splitLF_pieces.
Qed.

(** Two levels of calls are all [handleMessage] ever uses. *)
Lemma handleMessage_fuel_enough (fuel : nat) line e :
  handleMessage_fuel (S (S fuel)) line e = Some (handleMessage line e).
Proof.
  unfold handleMessage. destruct (JS.includesLF line) eqn:H.
  - by rewrite !handleMessage_fuel_multi.
  - by rewrite !handleMessage_fuel_single.
Qed.

End HandleMessage.

(** ** Multi-line payloads *)

(** C8. A payload with embedded line feeds is split on them, and its
    non-blank pieces are handled one after the other, in their order in the
    payload, each exactly as a line that arrives on its own; blank and
    whitespace-only pieces are skipped before anything is done with them,
    the global stream included. Every piece is free of line feeds, so the
    method calls itself at most one level deep and returns. *)
Theorem C8_payload_is_split_into_arrivals (payload : string) (e : Engine) :
  JS.includesLF payload = true ->
  handleMessage payload e
  = deliver (List.filter (fun subLine => negb (blank subLine)) (JS.splitLF payload)) e
  /\ (forall fuel, handleMessage_fuel (S (S fuel)) payload e = Some (handleMessage payload e))
  /\ Forall (fun subLine => JS.includesLF subLine = false) (JS.splitLF payload).
Proof.
  intros H. split; [|split].
  - unfold handleMessage. by rewrite handleMessage_fuel_multi.
  - intros fuel. apply handleMessage_fuel_enough.
  - apply splitLF_pieces.
Qed.

Lemma C8_witness :
  let payload := joinLF ["info depth 1"; "   "; "bestmove e2e4"; ""] in
  JS.includesLF payload = true
  /\ handleMessage payload goEngine = deliver ["info depth 1"; "bestmove e2e4"] goEngine.
Proof.
  split; [reflexivity|].
  exact (proj1 (C8_payload_is_split_into_arrivals
                  (joinLF ["info depth 1"; "   "; "bestmove e2e4"; ""]) goEngine eq_refl)).
Defined.

(** ** One line, one command *)

Section Frame.

Implicit Types (e : Engine) (line : string) (c : Command.t).

(** The completion test touches the flags of the engine and the message of
    the command, nothing else. *)
Lemma isCommandComplete_frame line c e :
  let '(_, c2, e2) := isCommandComplete line c e in
  commandQueue e2 = commandQueue e /\ worker e2 = worker e /\ stream e2 = stream e
  /\ Command.cmd c2 = Command.cmd c /\ Command.callback c2 = Command.callback c
  /\ Command.stream c2 = Command.stream c /\ Command.discard c2 = Command.discard c.
Proof.
  unfold isCommandComplete.
  repeat match goal with |- context [if ?b then _ else _] => destruct b end; done.
Qed.

(** The flags change only inside the completion test, that is only for a
    line that is attributed to a queued command. *)
Lemma flags_change_only_when_attributed line e :
  attributed line e = None ->
  loaded (handleLine line e).1 = loaded e /\ ready (handleLine line e).1 = ready e.
Proof. intros H. by rewrite attributed_None_handleLine. Qed.

End Frame.

Lemma attributed_index (line : string) (e : Engine) (k : nat) :
  attributed line e = Some k ->
  determineQueueIndex line (commandQueue e) = Z.of_nat k.
Proof.
  unfold attributed, JS.at_.
  destruct ((length (commandQueue e) =? 0)%nat || isSystemMessage line); [done|].
  cbv zeta. destruct (Z.ltb_spec (determineQueueIndex line (commandQueue e)) 0); [done|].
  destruct (commandQueue e !! _); [|done]. intros [= <-]. lia.
Qed.

(** C9. A line without line feed changes at most the command it is
    attributed to, the one at the index [determineQueueIndex] answers. A
    line that is attributed to no command leaves the queue as it is.
    Otherwise the entry at that index is either replaced by an entry of the
    same text, callbacks and discard flag, every other index holding what
    it held, or removed, the entries before it staying where they are and
    the entries after it moving down by one, unchanged and in their order.
    The queue loses at most one entry. *)
Theorem C9_line_changes_one_command (line : string) (e : Engine) :
  JS.includesLF line = false ->
  let queue := commandQueue e in
  let queue' := commandQueue (handleMessage line e).1 in
  match attributed line e with
  | None => queue' = queue
  | Some k =>
      determineQueueIndex line queue = Z.of_nat k
      /\ exists c c',
          queue !! k = Some c
          /\ Command.cmd c' = Command.cmd c
          /\ Command.callback c' = Command.callback c
          /\ Command.stream c' = Command.stream c
          /\ Command.discard c' = Command.discard c
          /\ ((queue' = <[k := c']> queue
               /\ forall j, j <> k -> queue' !! j = queue !! j)
              \/ (queue' = delete k queue
                  /\ (forall j, (j < k)%nat -> queue' !! j = queue !! j)
                  /\ (forall j, (k <= j)%nat -> queue' !! j = queue !! S j)))
  end
  /\ (length queue <= S (length queue'))%nat.
Proof.
  intros Hlf. rewrite handleMessage_single by done. cbv zeta.
  destruct (attributed line e) as [k|] eqn:Hk.
  - pose proof (attributed_index line e k Hk) as Hidx.
    apply attributed_Some_handleLine in Hk as (c & Hc & ->).
    unfold handleAttributed.
    pose proof (isCommandComplete_frame line
      (Command.set_message (buildMessage (Command.message c) line) c) e) as Hf.
    destruct (isCommandComplete _ _ e) as [[b c2] e2].
    destruct Hf as (Hq & _ & _ & H1 & H2 & H3 & H4).
    destruct b; cbn [fst commandQueue set_commandQueue]; rewrite Hq.
    + split.
      * split; [done|]. exists c, c2. repeat split; auto. right. split; [done|]. split.
        -- intros j Hj. by apply list_lookup_delete_lt.
        -- intros j Hj. by apply list_lookup_delete_ge.
      * rewrite length_delete by by eexists. lia.
    + split.
      * split; [done|]. exists c, c2. repeat split; auto. left. split; [done|].
        intros j Hj. by apply list_lookup_insert_ne.
      * rewrite length_insert. lia.
  - rewrite attributed_None_handleLine by done. split; [done | simpl; lia].
Qed.

Lemma C9_witness :
  JS.includesLF "bestmove e2e4" = false
  /\ attributed "bestmove e2e4" twoGoEngine = Some 0%nat
  /\ determineQueueIndex "bestmove e2e4" (commandQueue twoGoEngine) = 0
  /\ (length (commandQueue twoGoEngine)
      <= S (length (commandQueue (handleMessage "bestmove e2e4" twoGoEngine).1)))%nat.
Proof.
  split; [reflexivity|]. split; [reflexivity|].
  pose proof (C9_line_changes_one_command "bestmove e2e4" twoGoEngine eq_refl) as H.
  cbv zeta in H.
  change (attributed "bestmove e2e4" twoGoEngine) with (Some 0%nat) in H.
  split; [exact (proj1 (proj1 H)) | exact (proj2 H)].
Defined.

(** ** A line that finds the queue empty *)

(** C10. When [uciok] or [readyok] arrives while the queue is empty, the
    line goes to the global stream hook, if there is one, and nothing
    else happens: the engine, its [loaded] and [ready] flags included, is
    as before. *)
Theorem C10_empty_queue_keeps_flags (line : string) (e : Engine) :
  commandQueue e = [] ->
  line = "uciok" \/ line = "readyok" ->
  handleMessage line e = (e, streamEvents e line)
  /\ loaded (handleMessage line e).1 = loaded e
  /\ ready (handleMessage line e).1 = ready e.
Proof.
  intros Hq Hline.
  assert (handleMessage line e = (e, streamEvents e line)) as ->; [|done].
  rewrite handleMessage_single by by destruct Hline as [->| ->].
  apply attributed_None_handleLine. unfold attributed. by rewrite Hq.
Qed.

Lemma C10_witness :
  commandQueue (streamingEngine 0%nat) = []
  /\ handleMessage "uciok" (streamingEngine 0%nat)
     = (streamingEngine 0%nat, [EStream 0%nat "uciok"]).
Proof.
  split; [reflexivity|].
  exact (proj1 (C10_empty_queue_keeps_flags "uciok" (streamingEngine 0%nat)
                  eq_refl (or_introl eq_refl))).
Defined.

(** ** [send] and [quit] *)

Section SendQuit.

Implicit Types (e : Engine) (cmd : string).

(** The queuing test of [send] is the queuing rule. *)
Lemma needsQueue_spec cmd : needsQueue cmd = false <-> Immediate cmd.
Proof.
  unfold needsQueue, Immediate, JS.includes, immediateCommands. cbn [existsb].
  rewrite !andb_false_iff, !negb_false_iff, !orb_true_iff, !String.eqb_eq. split.
  - intros [[[?|[?|[?|[?|?]]]]|H%startsWith_inv]|H%startsWith_inv]; auto 10; done.
  - intros [?|[?|[?|[?|[[r ->]|[r ->]]]]]]; auto 10.
    + left. right. apply startsWith_app.
    + right. apply startsWith_app.
Qed.

Lemma quit_worker e : worker (quit e).1 = None.
Proof. unfold quit. by destruct (worker e) eqn:H. Qed.

End SendQuit.

(** C5. A command text that, once trimmed, is one of [ucinewgame], [flip],
    [stop], [ponderhit] or begins with [position] or [setoption] leaves the
    engine as it was: nothing is queued, the callbacks are not kept, and
    the only event of the call is the text posted to the worker, so that no
    later line can invoke the callback. Every other text, on an engine whose
    worker is live, is queued as one new last entry of the queue with an
    empty message, and the trimmed text is posted to the worker. *)
Theorem C5_send_queues_or_not (command : string) (callback stream : option Callback)
    (e : Engine) :
  let cmd := JS.trim command in
  (Immediate cmd ->
   (send command callback stream e).1.1 = e
   /\ forall ev, ev ∈ (send command callback stream e).1.2 -> ev = EPostMessage cmd)
  /\ (~ Immediate cmd -> worker e <> None ->
      send command callback stream e
      = (set_commandQueue (commandQueue e ++ [Command.mk cmd callback stream "" false]) e,
         [EPostMessage cmd], Returned)).
Proof.
  cbv zeta. unfold send. split.
  - intros H%needsQueue_spec. rewrite H.
    destruct (worker e); cbn [fst snd]; split; try done.
    + by intros ev ->%list_elem_of_singleton.
    + intros ev Hev. by apply not_elem_of_nil in Hev.
  - intros H Hw. destruct (needsQueue (JS.trim command)) eqn:Hn.
    + cbn [worker set_commandQueue]. by destruct (worker e).
    + by apply needsQueue_spec in Hn.
Qed.

Lemma C5_witness :
  (Immediate (JS.trim "  position startpos moves e2e4 ")
   /\ (send "  position startpos moves e2e4 " (Some 1%nat) None goEngine).1.1 = goEngine)
  /\ (~ Immediate (JS.trim " isready ") /\ worker goEngine <> None
      /\ send " isready " (Some 3%nat) None goEngine
         = (set_commandQueue
              (commandQueue goEngine ++ [Command.mk "isready" (Some 3%nat) None "" false])
              goEngine,
            [EPostMessage "isready"], Returned)).
Proof.
  assert (Immediate (JS.trim "  position startpos moves e2e4 ")) as Hi.
  { apply needsQueue_spec. reflexivity. }
  assert (~ Immediate (JS.trim " isready ")) as Hq.
  { intros H%needsQueue_spec. discriminate H. }
  assert (worker goEngine <> None) as Hw by discriminate.
  split.
  - split; [exact Hi|].
    exact (proj1 (proj1 (C5_send_queues_or_not
                           "  position startpos moves e2e4 " (Some 1%nat) None goEngine) Hi)).
  - split; [exact Hq|]. split; [exact Hw|].
    exact (proj2 (C5_send_queues_or_not " isready " (Some 3%nat) None goEngine) Hq Hw).
Defined.

(** C2 (as the code has it). After [quit], [send] throws on the [null]
    worker and posts nothing; the flags and the stream hook are as [quit]
    left them. The queue is as [quit] left it for an immediate command;
    for any other command the entry has already been appended when the call
    fails. *)
Theorem C2_send_after_quit (command : string) (callback stream : option Callback)
    (e : Engine) :
  let e1 := (quit e).1 in
  let cmd := JS.trim command in
  send command callback stream e1
  = (if needsQueue cmd
     then set_commandQueue (commandQueue e1 ++ [Command.mk cmd callback stream "" false]) e1
     else e1,
     [], ThrewTypeError)
  /\ (Immediate cmd -> (send command callback stream e1).1.1 = e1).
Proof.
  cbv zeta. pose proof (quit_worker e) as Hw.
  assert (send command callback stream (quit e).1
          = (if needsQueue (JS.trim command)
             then set_commandQueue
                    (commandQueue (quit e).1
                     ++ [Command.mk (JS.trim command) callback stream "" false]) (quit e).1
             else (quit e).1, [], ThrewTypeError)) as ->.
  { unfold send. destruct (needsQueue (JS.trim command)).
    - cbn [worker set_commandQueue]. by rewrite Hw.
    - by rewrite Hw. }
  split; [done|]. intros H%needsQueue_spec. by rewrite H.
Qed.

Lemma C2_witness :
  send "stop" None None (quit goEngine).1 = ((quit goEngine).1, [], ThrewTypeError).
Proof.
  exact (proj1 (C2_send_after_quit "stop" None None goEngine)).
Defined.

(** C2 fails as stated: a [send] after [quit] does add an entry to the
    queue when the command is one that is queued. *)
Lemma C2_counterexample :
  let e1 := (quit newEngine).1 in
  let r := send "go depth 10" (Some 1%nat) None e1 in
  r.2 = ThrewTypeError
  /\ commandQueue e1 = []
  /\ commandQueue r.1.1 = [Command.mk "go depth 10" (Some 1%nat) None "" false]
  /\ r.1.1 <> e1.
Proof. repeat split. discriminate. Qed.

(** ** The queue after [quit] *)

Section AfterQuit.

Implicit Types (e : Engine) (line : string).

Lemma attributed_sameQueue line e e' :
  commandQueue e = commandQueue e' -> attributed line e = attributed line e'.
Proof. intros H. unfold attributed. by rewrite H. Qed.

(** Handling a line reads the queue and the stream hook only: the worker
    and the flags have no part in it. *)
Lemma handleLine_sameQueue line e e' :
  commandQueue e = commandQueue e' -> stream e = stream e' ->
  sameQueue (handleLine line e) (handleLine line e').
Proof.
  intros Hq Hs. pose proof (attributed_sameQueue line e e' Hq) as Ha.
  assert (streamEvents e line = streamEvents e' line) as Hev.
  { unfold streamEvents. by rewrite Hs. }
  destruct (attributed line e) as [k|] eqn:Hk; symmetry in Ha.
  - apply attributed_Some_handleLine in Hk as (c & Hc & ->).
    apply attributed_Some_handleLine in Ha as (c' & Hc' & ->).
    assert (c' = c) as -> by congruence.
    unfold handleAttributed, isCommandComplete, sameQueue. rewrite Hev.
    repeat match goal with |- context [if ?b then _ else _] => destruct b end;
      cbn [fst snd commandQueue stream set_commandQueue set_loaded set_ready];
      by rewrite ?Hq, ?Hs.
  - rewrite !attributed_None_handleLine by done. by unfold sameQueue.
Qed.

Lemma deliver_sameQueue_when (P : string -> Prop) :
  (forall l e e', P l -> commandQueue e = commandQueue e' -> stream e = stream e' ->
                  sameQueue (handleMessage l e) (handleMessage l e')) ->
  forall lines, Forall P lines ->
  forall e e', commandQueue e = commandQueue e' -> stream e = stream e' ->
               sameQueue (deliver lines e) (deliver lines e').
Proof.
  intros Hstep lines Hall. induction Hall as [|l ls Hl _ IH]; intros e e' Hq Hs.
  - by unfold sameQueue.
  - rewrite !deliver_cons. destruct (Hstep l e e' Hl Hq Hs) as (Hq1 & Hs1 & Hev1).
    destruct (IH _ _ Hq1 Hs1) as (Hq2 & Hs2 & Hev2).
    unfold sameQueue. cbn [fst snd]. by rewrite Hev1, Hev2.
Qed.

Lemma handleMessage_sameQueue line e e' :
  commandQueue e = commandQueue e' -> stream e = stream e' ->
  sameQueue (handleMessage line e) (handleMessage line e').
Proof.
  intros Hq Hs. destruct (JS.includesLF line) eqn:Hlf.
  - unfold handleMessage. rewrite !handleMessage_fuel_multi by done.
    apply (deliver_sameQueue_when (fun l => JS.includesLF l = false)); [|  |done|done].
    + intros l e1 e1' Hl Hq1 Hs1. rewrite !handleMessage_single by done.
      by apply handleLine_sameQueue.
    + pose proof (splitLF_pieces line) as Hp.
      induction Hp as [|l ls Hl _ IH]; cbn [List.filter]; [done|].
      destruct (negb (blank l)); [by constructor | done].
  - rewrite !handleMessage_single by done. by apply handleLine_sameQueue.
Qed.

Lemma deliver_sameQueue (lines : list string) e e' :
  commandQueue e = commandQueue e' -> stream e = stream e' ->
  sameQueue (deliver lines e) (deliver lines e').
Proof.
  apply (deliver_sameQueue_when (fun _ => True)).
  - intros l e1 e1' _. apply handleMessage_sameQueue.
  - by apply Forall_true.
Qed.

End AfterQuit.

(** C7 (as the code has it). On an engine with a worker, [quit] terminates
    the worker, forgets it and clears [loaded] and [ready]; it calls no
    callback. The queue and the stream hook are left as they were: pending
    commands stay queued, and lines handled after [quit] reach them and call
    their callbacks exactly as they would have without [quit]. *)
Theorem C7_quit_keeps_queue (e : Engine) :
  worker e <> None ->
  (quit e).2 = [ETerminate]
  /\ worker (quit e).1 = None
  /\ loaded (quit e).1 = false
  /\ ready (quit e).1 = false
  /\ commandQueue (quit e).1 = commandQueue e
  /\ stream (quit e).1 = stream e
  /\ forall lines, sameQueue (deliver lines (quit e).1) (deliver lines e).
Proof.
  intros Hw.
  assert (commandQueue (quit e).1 = commandQueue e /\ stream (quit e).1 = stream e)
    as [Hq Hs] by (unfold quit; by destruct (worker e)).
  repeat split; try done; try (unfold quit; by destruct (worker e)).
  all: by apply deliver_sameQueue.
Qed.

Lemma C7_witness :
  worker goEngine <> None
  /\ (quit goEngine).2 = [ETerminate]
  /\ commandQueue (quit goEngine).1 = commandQueue goEngine.
Proof.
  assert (worker goEngine <> None) as Hw by discriminate.
  split; [exact Hw|].
  pose proof (C7_quit_keeps_queue goEngine Hw) as (H1 & _ & _ & _ & H5 & _).
  by split.
Defined.

(** C7 fails as stated: [quit] does not drop the queue, and a line handed
    to [handleMessage] afterwards still reaches the pending command and
    fires its callbacks. *)
Lemma C7_counterexample :
  let e1 := (quit goEngine).1 in
  commandQueue e1 = [Command.mk "go depth 10" (Some 1%nat) (Some 2%nat) "" false]
  /\ (handleMessage "bestmove e2e4" e1).2
     = [EStream 0%nat "bestmove e2e4"; ECommandStream 2%nat "bestmove e2e4";
        ECallback 1%nat "bestmove e2e4"].
Proof. split; reflexivity. Qed.

(** ** The fallback of [determineQueueIndex] *)

Section Fallback.

Implicit Types (e : Engine) (line : string).

(** A line that no queued command matches is attributed to no command,
    unless the head of the queue is [bench] or [perft]: [findIndex] answers
    -1, [-1 || 0] is -1, and the queue has nothing at -1. *)
Lemma unmatched_line_unattributed line e :
  headIsBenchOrPerft (commandQueue e) = false ->
  Forall (fun c => matchesType (cmdTypeOf line) c = false) (commandQueue e) ->
  attributed line e = None.
Proof.
  intros Hg Hall. destruct (attributed line e) as [k|] eqn:Hk; [|done].
  apply attributed_Some in Hk as (_ & _ & [[Hg' _]|[_ Hf]]); [congruence|].
  apply findIndex_none in Hall. lia.
Qed.

End Fallback.

(** C1 (what the code does). With [go depth 10] alone in the queue, the
    line [readyok] matches no queued command; [determineQueueIndex] answers
    -1, not 0, and the line is dropped after the global stream: the head
    command gets neither the line in its message nor a call of its stream
    function. *)
Theorem C1_unmatched_line_is_dropped :
  isSystemMessage "readyok" = false
  /\ Forall (fun c => matchesType (cmdTypeOf "readyok") c = false) (commandQueue goEngine)
  /\ determineQueueIndex "readyok" (commandQueue goEngine) = -1
  /\ attributed "readyok" goEngine = None
  /\ handleMessage "readyok" goEngine = (goEngine, [EStream 0%nat "readyok"]).
Proof.
  split; [reflexivity|]. split; [by repeat constructor|].
  split; [reflexivity|]. split; reflexivity.
Qed.

(** ** Completion of [eval] *)

Section Completion.

Implicit Types (e : Engine) (line : string) (c : Command.t).

Lemma isCommandComplete_eval line c e :
  Command.cmd c = "eval" ->
  line <> "uciok" -> line <> "readyok" -> JS.startsWith "bestmove" line = false ->
  isCommandComplete line c e = (evalRegex_test (Command.message c), c, e).
Proof.
  intros Hc H1%String.eqb_neq H2%String.eqb_neq H3. unfold isCommandComplete.
  by rewrite H1, H2, H3, Hc.
Qed.

End Completion.

(** C3. A line attributed to a queued command whose text is exactly [eval],
    and which is not [uciok], [readyok] or a [bestmove] line, completes the
    command if and only if the message of the command, with the line
    appended, has a trailing evaluation block: when it has one the command
    leaves the queue and its callback gets the message; when it has none the
    command stays queued with the longer message and no callback is
    called. *)
Theorem C3_eval_completes_iff_block (line : string) (e : Engine) (k : nat)
    (c : Command.t) :
  JS.includesLF line = false ->
  commandQueue e !! k = Some c ->
  Command.cmd c = "eval" ->
  attributed line e = Some k ->
  line <> "uciok" -> line <> "readyok" -> JS.startsWith "bestmove" line = false ->
  let buffer := buildMessage (Command.message c) line in
  let c' := Command.set_message buffer c in
  (EvalBlock buffer ->
   handleMessage line e
   = (set_commandQueue (delete k (commandQueue e)) e,
      streamEvents e line ++ commandStreamEvents c line ++ callbackEvents c'))
  /\ (~ EvalBlock buffer ->
      handleMessage line e
      = (set_commandQueue (<[k := c']> (commandQueue e)) e,
         streamEvents e line ++ commandStreamEvents c line)).
Proof.
  intros Hlf Hc Hcmd Hk H1 H2 H3. cbv zeta.
  rewrite handleMessage_single by done.
  apply attributed_Some_handleLine in Hk as (c0 & Hc0 & ->).
  assert (c0 = c) as -> by congruence.
  unfold handleAttributed. rewrite isCommandComplete_eval by done.
  cbn [Command.message Command.set_message].
  destruct (evalRegex_test _) eqn:Ht.
  - split; [done|]. intros Hn. by apply evalRegex_test_spec in Ht.
  - split; [|done]. intros Hb%evalRegex_test_spec. congruence.
Qed.

Lemma C3_witness :
  let c := Command.mk "eval" (Some 1%nat) None "Total Evaluation: 0.12 (white side)" false in
  commandQueue evalEngine !! 0%nat = Some c
  /\ attributed "" evalEngine = Some 0%nat
  /\ EvalBlock (buildMessage (Command.message c) "")
  /\ handleMessage "" evalEngine
     = (set_commandQueue [] evalEngine,
        [ECallback 1%nat ("Total Evaluation: 0.12 (white side)" +:+ String JS.LF "")]).
Proof.
  assert (EvalBlock (buildMessage "Total Evaluation: 0.12 (white side)" "")) as Hb.
  { apply evalRegex_test_spec. reflexivity. }
  split; [reflexivity|]. split; [reflexivity|]. split; [exact Hb|].
  refine (proj1 (C3_eval_completes_iff_block "" evalEngine 0%nat
                   (Command.mk "eval" (Some 1%nat) None
                      "Total Evaluation: 0.12 (white side)" false)
                   eq_refl eq_refl eq_refl eq_refl _ _ eq_refl) Hb); discriminate.
Defined.

(** ** A [go] command and its lines *)

Section Go.

Implicit Types (e : Engine) (line : string) (c : Command.t).

Lemma findIndex_middle {A} (p : A -> bool) (pre post : list A) (x : A) :
  Forall (fun y => p y = false) pre -> p x = true ->
  JS.findIndex p (pre ++ x :: post) = Z.of_nat (length pre).
Proof.
  intros Hpre Hx. induction Hpre as [|y pre Hy _ IH]; simpl.
  - by rewrite Hx.
  - rewrite Hy, IH. destruct (Z.eqb_spec (Z.of_nat (length pre)) (-1)); lia.
Qed.

(** The first command of the line's type gets the line. *)
Lemma attributed_first_match line e (pre post : list Command.t) c :
  commandQueue e = pre ++ c :: post ->
  isSystemMessage line = false ->
  headIsBenchOrPerft (commandQueue e) = false ->
  Forall (fun x => matchesType (cmdTypeOf line) x = false) pre ->
  matchesType (cmdTypeOf line) c = true ->
  attributed line e = Some (length pre).
Proof.
  intros Hq Hs Hg Hpre Hc. apply attributed_Some. split; [done|]. split.
  - rewrite Hq, list_lookup_middle by done. by eexists.
  - right. split; [done|]. rewrite Hq. by apply findIndex_middle.
Qed.

Lemma firstWord_text (w line : string) :
  getFirstWord line = w -> exists rest, line = w +:+ rest.
Proof. intros <-. apply getFirstWord_split. Qed.

Lemma matchesType_go c :
  matchesType "go" c = String.eqb (getFirstWord (Command.cmd c)) "go".
Proof. unfold matchesType. by rewrite orb_false_r. Qed.

(** An [info] line leaves a command that is not [d] or [eval] pending. *)
Lemma isCommandComplete_info line c e :
  getFirstWord line = "info" ->
  getFirstWord (Command.cmd c) = "go" ->
  isCommandComplete line c e = (false, c, e).
Proof.
  intros [r ->]%firstWord_text [r' Hc]%firstWord_text.
  unfold isCommandComplete. rewrite Hc. reflexivity.
Qed.

Lemma isCommandComplete_bestmove line c e :
  JS.startsWith "bestmove" line = true ->
  getFirstWord (Command.cmd c) = "go" ->
  isCommandComplete line c e = (true, Command.set_message line c, e).
Proof.
  intros [r ->]%startsWith_inv [r' Hc]%firstWord_text.
  unfold isCommandComplete. rewrite Hc, startsWith_app. reflexivity.
Qed.

Lemma getFirstWord_startsWith line : JS.startsWith (getFirstWord line) line = true.
Proof.
  destruct (getFirstWord_split line) as [r Hr]. rewrite Hr at 2. apply startsWith_app.
Qed.

Section Queue.

Variables (pre post : list Command.t).
Hypothesis pre_no_go :
  Forall (fun x => getFirstWord (Command.cmd x) <> "go") pre.

Lemma pre_unmatched :
  Forall (fun x => matchesType "go" x = false) pre.
Proof.
  eapply Forall_impl; [exact pre_no_go|]. intros x Hx. simpl.
  rewrite matchesType_go. by apply String.eqb_neq.
Qed.

Lemma info_step line c e :
  commandQueue e = pre ++ c :: post ->
  headIsBenchOrPerft (commandQueue e) = false ->
  getFirstWord (Command.cmd c) = "go" ->
  getFirstWord line = "info" -> JS.includesLF line = false ->
  handleMessage line e
  = (set_commandQueue
       (pre ++ Command.set_message (buildMessage (Command.message c) line) c :: post) e,
     streamEvents e line ++ commandStreamEvents c line).
Proof.
  intros Hq Hg Hc Hl Hlf. rewrite handleMessage_single by done.
  assert (cmdTypeOf line = "go") as Ht by (unfold cmdTypeOf; by rewrite Hl).
  assert (isSystemMessage line = false) as Hs.
  { destruct (firstWord_text _ _ Hl) as [r ->]. reflexivity. }
  assert (attributed line e = Some (length pre)) as Hk.
  { apply (attributed_first_match line e pre post c); rewrite ?Ht; try done.
    - apply pre_unmatched.
    - rewrite matchesType_go, Hc. reflexivity. }
  apply attributed_Some_handleLine in Hk as (c0 & Hc0 & ->).
  rewrite Hq, list_lookup_middle in Hc0 by done. injection Hc0 as <-.
  unfold handleAttributed. rewrite isCommandComplete_info by done.
  rewrite Hq, insert_app_r_alt, Nat.sub_diag by lia. reflexivity.
Qed.

Lemma bestmove_step line c e :
  commandQueue e = pre ++ c :: post ->
  headIsBenchOrPerft (commandQueue e) = false ->
  getFirstWord (Command.cmd c) = "go" ->
  getFirstWord line = "bestmove" -> JS.includesLF line = false ->
  handleMessage line e
  = (set_commandQueue (pre ++ post) e,
     streamEvents e line ++ commandStreamEvents c line
     ++ callbackEvents (Command.set_message line c)).
Proof.
  intros Hq Hg Hc Hl Hlf. rewrite handleMessage_single by done.
  assert (cmdTypeOf line = "go") as Ht by (unfold cmdTypeOf; by rewrite Hl).
  assert (JS.startsWith "bestmove" line = true) as Hb.
  { rewrite <- Hl. apply getFirstWord_startsWith. }
  assert (isSystemMessage line = false) as Hs.
  { destruct (firstWord_text _ _ Hl) as [r ->]. reflexivity. }
  assert (attributed line e = Some (length pre)) as Hk.
  { apply (attributed_first_match line e pre post c); rewrite ?Ht; try done.
    - apply pre_unmatched.
    - rewrite matchesType_go, Hc. reflexivity. }
  apply attributed_Some_handleLine in Hk as (c0 & Hc0 & ->).
  rewrite Hq, list_lookup_middle in Hc0 by done. injection Hc0 as <-.
  unfold handleAttributed. rewrite isCommandComplete_bestmove by done.
  rewrite Hq, delete_middle. reflexivity.
Qed.

Lemma headIsBenchOrPerft_middle c c' :
  getFirstWord (Command.cmd c) = "go" -> getFirstWord (Command.cmd c') = "go" ->
  headIsBenchOrPerft (pre ++ c :: post) = headIsBenchOrPerft (pre ++ c' :: post).
Proof.
  intros [r H]%firstWord_text [r' H']%firstWord_text.
  destruct pre; [|done]. simpl. rewrite H, H'. reflexivity.
Qed.

(** [info] lines, then the [bestmove] line, for the first [go] command of
    the queue. *)
Lemma go_run (infos : list string) (best : string) c e :
  commandQueue e = pre ++ c :: post ->
  headIsBenchOrPerft (commandQueue e) = false ->
  getFirstWord (Command.cmd c) = "go" ->
  Forall (fun l => getFirstWord l = "info" /\ JS.includesLF l = false) infos ->
  getFirstWord best = "bestmove" -> JS.includesLF best = false ->
  deliver (infos ++ [best]) e
  = (set_commandQueue (pre ++ post) e,
     flat_map (fun l => streamEvents e l ++ commandStreamEvents c l) (infos ++ [best])
     ++ callbackEvents (Command.set_message best c)).
Proof.
  intros Hq Hg Hc Hinfos Hb Hblf. revert c e Hq Hg Hc.
  induction Hinfos as [|l ls [Hl Hlf] _ IH]; intros c e Hq Hg Hc.
  - cbn [app flat_map]. rewrite deliver_cons, deliver_nil.
    rewrite (bestmove_step best c e) by done. cbn [fst snd].
    by rewrite !app_nil_r, <- !app_assoc.
  - cbn [app flat_map]. rewrite deliver_cons.
    rewrite (info_step l c e) by done. cbn [fst snd].
    set (c1 := Command.set_message (buildMessage (Command.message c) l) c).
    set (e1 := set_commandQueue (pre ++ c1 :: post) e).
    rewrite (IH c1 e1); [by rewrite <- !app_assoc|done| |done].
    cbn [e1 commandQueue set_commandQueue].
    rewrite <- Hg, Hq. by apply headIsBenchOrPerft_middle.
Qed.

End Queue.

End Go.

(** C4. A queued [go] command that is the first [go] command of the queue
    (the head of the queue not being [bench] or [perft]) receives
    [info] lines and then a [bestmove] line: its stream function is called
    once for each of these lines, in order, and its callback is called
    once, after them, with the [bestmove] line alone as its argument; the
    command has then left the queue. *)
Theorem C4_go_streams_then_completes (pre post : list Command.t) (c : Command.t)
    (onComplete onStream : Callback) (infos : list string) (best : string)
    (e : Engine) :
  commandQueue e = pre ++ c :: post ->
  Forall (fun x => getFirstWord (Command.cmd x) <> "go") pre ->
  headIsBenchOrPerft (commandQueue e) = false ->
  getFirstWord (Command.cmd c) = "go" ->
  Command.callback c = Some onComplete ->
  Command.stream c = Some onStream ->
  Command.discard c = false ->
  Forall (fun l => getFirstWord l = "info" /\ JS.includesLF l = false) infos ->
  getFirstWord best = "bestmove" -> JS.includesLF best = false ->
  Command.cmd c <> "bench"
  /\ deliver (infos ++ [best]) e
     = (set_commandQueue (pre ++ post) e,
        flat_map (fun l => streamEvents e l ++ [ECommandStream onStream l]) (infos ++ [best])
        ++ [ECallback onComplete best]).
Proof.
  intros Hq Hpre Hg Hc Hcb Hst Hd Hinfos Hb Hblf. split.
  - destruct (firstWord_text _ _ Hc) as [r ->]. discriminate.
  - rewrite (go_run pre post Hpre infos best c e) by done.
    unfold commandStreamEvents, callbackEvents. cbn [Command.set_message
      Command.callback Command.discard Command.message]. by rewrite Hcb, Hst, Hd.
Qed.

Lemma C4_witness :
  deliver (["info depth 1 score cp 20"; "info depth 2 score cp 25"] ++ ["bestmove e2e4"])
    goEngine
  = (set_commandQueue [] goEngine,
     [EStream 0%nat "info depth 1 score cp 20";
      ECommandStream 2%nat "info depth 1 score cp 20";
      EStream 0%nat "info depth 2 score cp 25";
      ECommandStream 2%nat "info depth 2 score cp 25";
      EStream 0%nat "bestmove e2e4";
      ECommandStream 2%nat "bestmove e2e4";
      ECallback 1%nat "bestmove e2e4"]).
Proof.
  refine (proj2 (C4_go_streams_then_completes [] []
                   (Command.mk "go depth 10" (Some 1%nat) (Some 2%nat) "" false)
                   1%nat 2%nat
                   ["info depth 1 score cp 20"; "info depth 2 score cp 25"]
                   "bestmove e2e4" goEngine
                   eq_refl _ eq_refl eq_refl eq_refl eq_refl eq_refl _ eq_refl eq_refl)).
  - constructor.
  - repeat constructor.
Defined.

(** ** Two commands of one family *)

Section Family.

Implicit Types (e : Engine) (line : string) (c : Command.t) (t : string).

Lemma cmdTypeOf_cases line :
  cmdTypeOf line = "uci" \/ cmdTypeOf line = "isready"
  \/ cmdTypeOf line = "go" \/ cmdTypeOf line = "other".
Proof.
  unfold cmdTypeOf.
  repeat match goal with |- context [if ?b then _ else _] => destruct b end; auto.
Qed.

Lemma matchesType_spec t c :
  matchesType t c = true <->
  getFirstWord (Command.cmd c) = t
  \/ (t = "other" /\ (getFirstWord (Command.cmd c) = "d"
                      \/ getFirstWord (Command.cmd c) = "eval")).
Proof.
  unfold matchesType, JS.includes. cbn [existsb].
  rewrite orb_true_iff, andb_true_iff, !orb_true_iff, !String.eqb_eq.
  intuition discriminate.
Qed.

(** Two commands of one family match the same line types. *)
Lemma matchesType_same_family t line c1 c2 :
  matchesType t c1 = true -> matchesType t c2 = true ->
  matchesType (cmdTypeOf line) c2 = true ->
  matchesType (cmdTypeOf line) c1 = true.
Proof.
  rewrite !matchesType_spec. intros H1 H2 H3.
  destruct (cmdTypeOf_cases line) as [Ht|[Ht|[Ht|Ht]]]; rewrite Ht in *;
    intuition (subst; try congruence; try discriminate; auto).
Qed.

(** While an earlier command of its family is queued, a command gets no
    line. *)
Lemma later_not_attributed line e (i j : nat) c1 c2 t :
  commandQueue e !! i = Some c1 -> commandQueue e !! j = Some c2 -> (i < j)%nat ->
  matchesType t c1 = true -> matchesType t c2 = true ->
  attributed line e <> Some j.
Proof.
  intros Hi Hj Hij H1 H2 (_ & _ & [[_ ->]|[_ Hf]])%attributed_Some; [lia|].
  apply findIndex_first in Hf as [(x & Hx & Hpx) Hmin].
  assert (x = c2) as -> by congruence.
  specialize (Hmin i c1 Hij Hi).
  rewrite (matchesType_same_family t line c1 c2) in Hmin by done. discriminate.
Qed.

(** A command that does not get the line stays in the queue as it is, at
    its index or one index down. *)
Lemma unattributed_stays line e (j : nat) c :
  JS.includesLF line = false ->
  commandQueue e !! j = Some c -> attributed line e <> Some j ->
  exists j', (j' = j \/ S j' = j)
             /\ commandQueue (handleMessage line e).1 !! j' = Some c.
Proof.
  intros Hlf Hj Hne. rewrite handleMessage_single by done.
  destruct (attributed line e) as [k|] eqn:Hk.
  - assert (k <> j) as Hkj by congruence.
    apply attributed_Some_handleLine in Hk as (c0 & Hc0 & ->).
    unfold handleAttributed.
    pose proof (isCommandComplete_frame line
      (Command.set_message (buildMessage (Command.message c0) line) c0) e) as Hf.
    destruct (isCommandComplete _ _ e) as [[b c2] e2]. destruct Hf as (Hq & _).
    destruct b; cbn [fst commandQueue set_commandQueue]; rewrite Hq.
    + destruct (decide (k < j)%nat) as [Hlt|Hge].
      * destruct j as [|j']; [lia|]. exists j'. split; [by right|].
        rewrite list_lookup_delete_ge by lia. done.
      * exists j. split; [by left|]. rewrite list_lookup_delete_lt by lia. done.
    + exists j. split; [by left|]. by rewrite list_lookup_insert_ne.
  - exists j. split; [by left|]. by rewrite attributed_None_handleLine.
Qed.

(** The line of a family goes to the earliest queued command of the
    family. *)
Lemma family_line_to_earliest line e (i : nat) c1 :
  commandQueue e !! i = Some c1 -> matchesType (cmdTypeOf line) c1 = true ->
  isSystemMessage line = false -> headIsBenchOrPerft (commandQueue e) = false ->
  exists k c,
    attributed line e = Some k /\ (k <= i)%nat
    /\ commandQueue e !! k = Some c /\ matchesType (cmdTypeOf line) c = true
    /\ forall k' c', (k' < k)%nat -> commandQueue e !! k' = Some c' ->
                     matchesType (cmdTypeOf line) c' = false.
Proof.
  intros Hi H1 Hs Hg.
  destruct (findIndex_range (matchesType (cmdTypeOf line)) (commandQueue e)) as [Hf|Hf].
  - apply findIndex_none in Hf. rewrite Forall_forall in Hf.
    apply list_elem_of_lookup_2, Hf in Hi. congruence.
  - set (f := JS.findIndex _ _) in *.
    assert (f = Z.of_nat (Z.to_nat f)) as Hk by lia.
    pose proof Hk as [(c & Hc & Hpc) Hmin]%findIndex_first.
    exists (Z.to_nat f), c. split; [|split; [|done]].
    + apply attributed_Some. split; [done|]. split; [by eexists|]. by right.
    + destruct (decide (Z.to_nat f <= i)%nat) as [|Hgt]; [done|].
      rewrite (Hmin i c1) in H1; [done|lia|done].
Qed.

(** A [go] command that gets a line other than a [bestmove] line stays
    queued, and its callback is not called. *)
Lemma go_pending_without_bestmove line e (j : nat) c :
  JS.includesLF line = false ->
  commandQueue e !! j = Some c -> getFirstWord (Command.cmd c) = "go" ->
  attributed line e = Some j -> JS.startsWith "bestmove" line = false ->
  handleMessage line e
  = (set_commandQueue
       (<[j := Command.set_message (buildMessage (Command.message c) line) c]>
          (commandQueue e)) e,
     streamEvents e line ++ commandStreamEvents c line).
Proof.
  intros Hlf Hj Hc Hk Hb. rewrite handleMessage_single by done.
  pose proof Hk as (_ & _ & Hcase)%attributed_Some.
  assert (getFirstWord line = "info") as Hinfo.
  { destruct Hcase as [[Hg ->]|[_ Hf]].
    - destruct (commandQueue e) as [|c0 q]; [done|]. injection Hj as ->.
      destruct (firstWord_text _ _ Hc) as [r Hr]. simpl in Hg. rewrite Hr in Hg.
      discriminate Hg.
    - apply findIndex_first in Hf as [(x & Hx & Hpx) _].
      assert (x = c) as -> by congruence.
      apply matchesType_spec in Hpx. rewrite Hc in Hpx.
      assert (cmdTypeOf line = "go") as Ht.
      { destruct Hpx as [<-|[_ [?|?]]]; done. }
      revert Ht. unfold cmdTypeOf, JS.includes. cbn [existsb].
      destruct (String.eqb_spec (getFirstWord line) "uciok"); [done|].
      destruct (String.eqb_spec (getFirstWord line) "option"); [done|].
      destruct (String.eqb_spec (getFirstWord line) "readyok"); [done|].
      destruct (String.eqb_spec (getFirstWord line) "bestmove") as [Hbm|].
      + pose proof (getFirstWord_startsWith line) as Hp. rewrite Hbm in Hp. congruence.
      + by destruct (String.eqb_spec (getFirstWord line) "info"). }
  apply attributed_Some_handleLine in Hk as (c0 & Hc0 & ->).
  assert (c0 = c) as -> by congruence.
  unfold handleAttributed. by rewrite isCommandComplete_info.
Qed.

End Family.

Section FamilyEvents.

Implicit Types (e : Engine) (line : string) (c : Command.t).

(** The events of a line are the call of the stream hook and calls of
    functions of the command the line is attributed to. *)
Lemma handleMessage_events line e :
  JS.includesLF line = false ->
  (attributed line e = None /\ handleMessage line e = (e, streamEvents e line))
  \/ exists k c c',
       attributed line e = Some k /\ commandQueue e !! k = Some c
       /\ Command.callback c' = Command.callback c
       /\ ((handleMessage line e).2 = streamEvents e line ++ commandStreamEvents c line
           \/ (handleMessage line e).2
              = streamEvents e line ++ commandStreamEvents c line ++ callbackEvents c').
Proof.
  intros Hlf. rewrite handleMessage_single by done.
  destruct (attributed line e) as [k|] eqn:Hk.
  - right. apply attributed_Some_handleLine in Hk as (c & Hc & ->).
    unfold handleAttributed.
    pose proof (isCommandComplete_frame line
      (Command.set_message (buildMessage (Command.message c) line) c) e) as Hf.
    destruct (isCommandComplete _ _ e) as [[b c2] e2].
    destruct Hf as (_ & _ & _ & _ & H2 & _).
    exists k, c, c2. split; [done|]. split; [done|]. split; [done|].
    destruct b; cbn [snd]; [by right | by left].
  - left. split; [done|]. by apply attributed_None_handleLine.
Qed.

Lemma bestmove_completes_go line e (k : nat) c :
  JS.includesLF line = false ->
  commandQueue e !! k = Some c -> getFirstWord (Command.cmd c) = "go" ->
  attributed line e = Some k -> JS.startsWith "bestmove" line = true ->
  handleMessage line e
  = (set_commandQueue (delete k (commandQueue e)) e,
     streamEvents e line ++ commandStreamEvents c line
     ++ callbackEvents (Command.set_message line c)).
Proof.
  intros Hlf Hc Hgo Hk Hb. rewrite handleMessage_single by done.
  apply attributed_Some_handleLine in Hk as (c0 & Hc0 & ->).
  assert (c0 = c) as -> by congruence.
  unfold handleAttributed. by rewrite isCommandComplete_bestmove.
Qed.

End FamilyEvents.

(** C6 (as the code has it). Let two commands of one family be queued, the
    first before the second, and let a line without line feed arrive.
    - The line is not attributed to the second command, which stays in the
      queue as it is. The events of the line are the call of the global
      stream hook and calls of the stream function and callback of the
      command the line is attributed to, which is not the second one: a
      function that belongs to the second command alone is not called.
    - A line of the family that is not a system message goes to the
      earliest queued command of the family when the head of the queue is
      not [bench] or [perft]; when it is, the line goes to the head.
    - A [go] command that does get a line stays pending, its callback not
      called, unless the line is a [bestmove] line; on a [bestmove] line
      it leaves the queue and its callback gets that line. *)
Theorem C6_fifo_within_family (line : string) (e : Engine) (i j : nat)
    (c1 c2 : Command.t) (t : string) :
  JS.includesLF line = false ->
  commandQueue e !! i = Some c1 -> commandQueue e !! j = Some c2 -> (i < j)%nat ->
  matchesType t c1 = true -> matchesType t c2 = true ->
  (attributed line e <> Some j
   /\ exists j', (j' = j \/ S j' = j)
                 /\ commandQueue (handleMessage line e).1 !! j' = Some c2)
  /\ ((attributed line e = None /\ handleMessage line e = (e, streamEvents e line))
      \/ exists k c c',
           attributed line e = Some k /\ k <> j /\ commandQueue e !! k = Some c
           /\ Command.callback c' = Command.callback c
           /\ ((handleMessage line e).2
               = streamEvents e line ++ commandStreamEvents c line
               \/ (handleMessage line e).2
                  = streamEvents e line ++ commandStreamEvents c line
                    ++ callbackEvents c'))
  /\ (forall f,
        (forall k c, k <> j -> commandQueue e !! k = Some c ->
                     Command.callback c <> Some f /\ Command.stream c <> Some f) ->
        forall m, (ECallback f m ∉ (handleMessage line e).2)
                  /\ (ECommandStream f m ∉ (handleMessage line e).2))
  /\ (cmdTypeOf line = t -> isSystemMessage line = false ->
      headIsBenchOrPerft (commandQueue e) = false ->
      exists k c,
        attributed line e = Some k /\ (k <= i)%nat
        /\ commandQueue e !! k = Some c /\ matchesType t c = true
        /\ forall k' c', (k' < k)%nat -> commandQueue e !! k' = Some c' ->
                         matchesType t c' = false)
  /\ (isSystemMessage line = false -> headIsBenchOrPerft (commandQueue e) = true ->
      attributed line e = Some 0%nat)
  /\ (forall e' j' c,
        commandQueue e' !! j' = Some c -> getFirstWord (Command.cmd c) = "go" ->
        attributed line e' = Some j' ->
        (JS.startsWith "bestmove" line = false ->
         handleMessage line e'
         = (set_commandQueue
              (<[j' := Command.set_message (buildMessage (Command.message c) line) c]>
                 (commandQueue e')) e',
            streamEvents e' line ++ commandStreamEvents c line))
        /\ (JS.startsWith "bestmove" line = true ->
            handleMessage line e'
            = (set_commandQueue (delete j' (commandQueue e')) e',
               streamEvents e' line ++ commandStreamEvents c line
               ++ callbackEvents (Command.set_message line c)))).
Proof.
  intros Hlf Hi Hj Hij H1 H2.
  pose proof (later_not_attributed line e i j c1 c2 t Hi Hj Hij H1 H2) as Hne.
  assert ((attributed line e = None /\ handleMessage line e = (e, streamEvents e line))
          \/ exists k c c',
               attributed line e = Some k /\ k <> j /\ commandQueue e !! k = Some c
               /\ Command.callback c' = Command.callback c
               /\ ((handleMessage line e).2
                   = streamEvents e line ++ commandStreamEvents c line
                   \/ (handleMessage line e).2
                      = streamEvents e line ++ commandStreamEvents c line
                        ++ callbackEvents c')) as Hev.
  { destruct (handleMessage_events line e Hlf) as [H|(k & c & c' & Hk & Hc & Hcb & He)];
      [by left|]. right. exists k, c, c'. repeat split; try done. congruence. }
  split; [split; [done | by apply unattributed_stays]|]. split; [exact Hev|].
  split; [|split; [|split]].
  - intros f Hf m.
    assert (forall ev, ev ∈ streamEvents e line ->
                       ev <> ECallback f m /\ ev <> ECommandStream f m) as Hs.
    { intros ev. unfold streamEvents. destruct (stream e);
        [intros ->%list_elem_of_singleton; by split | by intros ?%not_elem_of_nil]. }
    destruct Hev as [[_ ->]|(k & c & c' & _ & Hkj & Hc & Hcb & He)].
    + cbn [snd]. split; intros Hin; by destruct (Hs _ Hin).
    + destruct (Hf k c Hkj Hc) as [Hfc Hfs].
      assert (forall ev, ev ∈ commandStreamEvents c line ->
                         ev <> ECallback f m /\ ev <> ECommandStream f m) as Hcs.
      { intros ev. unfold commandStreamEvents. destruct (Command.stream c) eqn:Hst;
          [intros ->%list_elem_of_singleton; split; congruence
          | by intros ?%not_elem_of_nil]. }
      assert (forall ev, ev ∈ callbackEvents c' ->
                         ev <> ECallback f m /\ ev <> ECommandStream f m) as Hce.
      { intros ev. unfold callbackEvents. rewrite Hcb.
        destruct (Command.callback c) eqn:Hcc; [|by intros ?%not_elem_of_nil].
        destruct (Command.discard c'); [by intros ?%not_elem_of_nil|].
        intros ->%list_elem_of_singleton. split; congruence. }
      destruct He as [-> | ->]; split; intros Hin;
        repeat (apply elem_of_app in Hin as [Hin|Hin]);
        first [by destruct (Hs _ Hin) | by destruct (Hcs _ Hin) | by destruct (Hce _ Hin)].
  - intros <- Hs Hg. by apply (family_line_to_earliest line e i c1).
  - intros Hs Hg. apply attributed_Some. split; [done|]. split; [|by left].
    destruct (commandQueue e); [done | by eexists].
  - intros e' j' c Hc Hgo Hk. split; intros Hb.
    + by apply go_pending_without_bestmove.
    + by apply bestmove_completes_go.
Qed.

Lemma C6_witness :
  let line := "bestmove e2e4" in
  attributed line twoGoEngine = Some 0%nat
  /\ attributed line twoGoEngine <> Some 1%nat
  /\ (handleMessage line twoGoEngine).2
     = [ECommandStream 2%nat "bestmove e2e4"; ECallback 1%nat "bestmove e2e4"]
  /\ ECallback 3%nat "bestmove e2e4" ∉ (handleMessage line twoGoEngine).2.
Proof.
  pose proof (C6_fifo_within_family "bestmove e2e4" twoGoEngine 0%nat 1%nat
                (Command.mk "go depth 5" (Some 1%nat) (Some 2%nat) "" false)
                (Command.mk "go depth 10" (Some 3%nat) (Some 4%nat) "" false)
                "go" eq_refl eq_refl eq_refl (le_n 1) eq_refl eq_refl)
    as ([Hne _] & _ & Hf & _).
  split; [reflexivity|]. split; [exact Hne|]. split; [reflexivity|].
  refine (proj1 (Hf 3%nat _ "bestmove e2e4")).
  intros [|[|k]] c Hk Hc; [|done|discriminate Hc].
  injection Hc as <-. split; discriminate.
Defined.

(** C6 fails as stated: with [bench] at the head of the queue, a line of
    the [go] family goes to [bench], not to the earliest [go] command. *)
Lemma C6_counterexample :
  let line := "info depth 1" in
  cmdTypeOf line = "go"
  /\ (matchesType "go" <$> commandQueue benchGoGoEngine) = [false; true; true]
  /\ attributed line benchGoGoEngine = Some 0%nat
  /\ (Command.message <$> commandQueue (handleMessage line benchGoGoEngine).1)
     = ["info depth 1"; ""; ""].
Proof. repeat split. Qed.

(** ** First words and trimmed texts *)

Section Words.

Lemma substring0_first (c : ascii) (s : string) :
  0 <= JS.indexOf c s ->
  JS.indexOf c (JS.substring0 (JS.indexOf c s) s) = -1
  /\ exists rest, s = JS.substring0 (JS.indexOf c s) s +:+ String c rest.
Proof.
  unfold JS.substring0. induction s as [|a s IH]; simpl; [lia|].
  destruct (Ascii.eqb_spec a c) as [->|Hne].
  - intros _. split; [done|]. by exists s.
  - destruct (Z.eqb_spec (JS.indexOf c s) (-1)) as [|Hi]; [lia|]. intros _.
    destruct (indexOf_range c s) as [|Hge]; [done|].
    destruct (IH Hge) as [Hno [rest Hrest]].
    replace (Z.to_nat (1 + JS.indexOf c s)) with (S (Z.to_nat (JS.indexOf c s))) by lia.
    cbn [String.substring]. split.
    + cbn [JS.indexOf]. destruct (Ascii.eqb_spec a c); [done|]. by rewrite Hno.
    + exists rest. exact (f_equal (String a) Hrest).
Qed.

Lemma trimStart_cons_nonws (a : ascii) (r : string) :
  JS.isWhiteSpace a = false -> JS.trimStart (String a r) = String a r.
Proof. intros H. cbn [JS.trimStart]. by rewrite H. Qed.

Lemma trimStart_head (s : string) :
  JS.trimStart s = EmptyString
  \/ exists a r, JS.trimStart s = String a r /\ JS.isWhiteSpace a = false.
Proof.
  induction s as [|a s IH]; [by left|]. cbn [JS.trimStart].
  destruct (JS.isWhiteSpace a) eqn:Ha; [done|]. right. by exists a, s.
Qed.

Lemma trimEnd_cons_nonws (a : ascii) (r : string) :
  JS.isWhiteSpace a = false -> JS.trimEnd (String a r) = String a (JS.trimEnd r).
Proof. intros H. cbn [JS.trimEnd]. rewrite H. by destruct (JS.trimEnd r). Qed.

Lemma trimEnd_idem (s : string) : JS.trimEnd (JS.trimEnd s) = JS.trimEnd s.
Proof.
  induction s as [|a s IH]; [done|]. cbn [JS.trimEnd].
  destruct (JS.trimEnd s) as [|b u] eqn:Hu.
  - destruct (JS.isWhiteSpace a) eqn:Ha; [done|]. cbn [JS.trimEnd]. by rewrite Ha.
  - cbn [JS.trimEnd] in *. by rewrite IH.
Qed.

(** Trimming a trimmed text changes nothing. *)
Lemma trim_idem (s : string) : JS.trim (JS.trim s) = JS.trim s.
Proof.
  unfold JS.trim. destruct (trimStart_head s) as [->|(a & r & -> & Ha)]; [done|].
  rewrite (trimEnd_cons_nonws a r Ha), (trimStart_cons_nonws a _ Ha).
  by rewrite <- (trimEnd_cons_nonws a r Ha), trimEnd_idem.
Qed.

End Words.

(** X1. The first word of a line holds no space and is the part of the
    line before its first space: the line is the word itself, or the word,
    a space and the rest. Taking the first word twice is taking it once. *)
Theorem X1_getFirstWord_leading_word (line : string) :
  JS.indexOf " " (getFirstWord line) = -1
  /\ (line = getFirstWord line
      \/ exists rest, line = getFirstWord line +:+ String " " rest)
  /\ getFirstWord (getFirstWord line) = getFirstWord line.
Proof.
  assert (JS.indexOf " " (getFirstWord line) = -1
          /\ (line = getFirstWord line
              \/ exists rest, line = getFirstWord line +:+ String " " rest)) as [H1 H2].
  { unfold getFirstWord.
    destruct (Z.eqb_spec (JS.indexOf " " line) (-1)) as [Hi|Hi]; [by split; [|left]|].
    destruct (indexOf_range " " line) as [|Hge]; [done|].
    destruct (substring0_first " " line Hge) as [Hno Hrest]. split; [done | by right]. }
  split; [done|]. split; [done|].
  unfold getFirstWord at 1. by rewrite H1.
Qed.

(** ** Payloads as sequences of lines *)

Section Payloads.

Implicit Types (e : Engine) (line payload : string).

Lemma linesOf_noLF payload :
  Forall (fun line => JS.includesLF line = false) (linesOf payload).
Proof.
  unfold linesOf. destruct (JS.includesLF payload) eqn:H; [|by repeat constructor].
  pose proof (splitLF_pieces payload) as Hp.
  induction Hp as [|l ls Hl _ IH]; cbn [List.filter]; [done|].
  destruct (JS.truthy (JS.trim l)); [by constructor | done].
Qed.

(** [handleMessage] works through the lines of the payload in order. *)
Lemma handleMessage_linesOf payload e :
  handleMessage payload e = deliver (linesOf payload) e.
Proof.
  unfold linesOf. destruct (JS.includesLF payload) eqn:H.
  - unfold handleMessage. rewrite handleMessage_fuel_multi by done. f_equal.
    apply List.filter_ext. intros l. unfold blank. apply negb_involutive.
  - rewrite deliver_cons, deliver_nil. cbn [fst snd]. rewrite app_nil_r.
    by destruct (handleMessage payload e).
Qed.

(** A relation between the engines before and after that holds for every
    single line holds for every payload. *)
Lemma handleMessage_lines_rel (R : Engine -> Engine -> Prop) :
  (forall e, R e e) -> (forall e1 e2 e3, R e1 e2 -> R e2 e3 -> R e1 e3) ->
  (forall line e, R e (handleLine line e).1) ->
  forall payload e, R e (handleMessage payload e).1.
Proof.
  intros Hrefl Htrans Hline payload e. rewrite handleMessage_linesOf.
  pose proof (linesOf_noLF payload) as Hall. revert e.
  induction Hall as [|l ls Hl _ IH]; intros e; [apply Hrefl|].
  rewrite deliver_cons. cbn [fst]. rewrite handleMessage_single by done.
  eapply Htrans; [apply Hline | apply IH].
Qed.

Lemma framed_refl e : framed e e.
Proof. by unfold framed. Qed.

Lemma framed_trans e1 e2 e3 : framed e1 e2 -> framed e2 e3 -> framed e1 e3.
Proof.
  intros (Hw & Hs & Hl & Hr & Hq) (Hw' & Hs' & Hl' & Hr' & Hq').
  unfold framed. repeat split; try congruence; auto. by etrans.
Qed.

Lemma isCommandComplete_flags line (c : Command.t) e :
  let '(_, _, e2) := isCommandComplete line c e in
  (loaded e2 = loaded e \/ (line = "uciok" /\ loaded e2 = true))
  /\ (ready e2 = ready e \/ (line = "readyok" /\ ready e2 = true)).
Proof.
  unfold isCommandComplete.
  destruct (String.eqb_spec line "uciok") as [->|_]; [split; [by right | by left]|].
  destruct (String.eqb_spec line "readyok") as [->|_]; [split; [by left | by right]|].
  repeat match goal with |- context [if ?b then _ else _] => destruct b end; by split; left.
Qed.

(** One line: the flags and the queue afterwards. *)
Lemma handleLine_effect line e :
  framed e (handleLine line e).1
  /\ (loaded (handleLine line e).1 = loaded e
      \/ (line = "uciok" /\ loaded (handleLine line e).1 = true))
  /\ (ready (handleLine line e).1 = ready e
      \/ (line = "readyok" /\ ready (handleLine line e).1 = true)).
Proof.
  destruct (attributed line e) as [k|] eqn:Hk.
  - apply attributed_Some_handleLine in Hk as (c & Hc & ->).
    unfold handleAttributed.
    set (c1 := Command.set_message _ c).
    pose proof (isCommandComplete_frame line c1 e) as Hf.
    pose proof (isCommandComplete_flags line c1 e) as Hg.
    destruct (isCommandComplete line c1 e) as [[b c2] e2].
    destruct Hf as (Hq & Hw & Hs & H1 & H2 & H3 & H4). destruct Hg as [Hl Hr].
    assert (identity c2 = identity c) as Hid.
    { unfold identity. by rewrite H1, H2, H3, H4. }
    assert (framed e (set_commandQueue (if b then delete k (commandQueue e2)
                                        else <[k := c2]> (commandQueue e2)) e2)) as Hfr.
    { unfold framed. cbn [worker stream loaded ready commandQueue set_commandQueue].
      split; [done|]. split; [done|]. split; [destruct Hl as [->|[_ ->]]; auto|].
      split; [destruct Hr as [->|[_ ->]]; auto|]. rewrite Hq. destruct b.
      - rewrite list_fmap_delete. apply sublist_delete.
      - rewrite list_fmap_insert, Hid, list_insert_id; [done|].
        by rewrite list_lookup_fmap, Hc. }
    destruct b; cbn [fst]; (split; [exact Hfr|]); split; [exact Hl|exact Hr|exact Hl|exact Hr].
  - rewrite attributed_None_handleLine by done. cbn [fst].
    split; [apply framed_refl|]. by split; left.
Qed.

(** The events of a line start with its call of the stream hook, the only
    such call. *)
Lemma handleLine_streamed line e :
  streamedLines (handleLine line e).2 = match stream e with Some _ => [line] | None => [] end.
Proof.
  assert (streamedLines (streamEvents e line) = match stream e with Some _ => [line] | None => [] end) as Hs.
  { unfold streamEvents. by destruct (stream e). }
  destruct (attributed line e) as [k|] eqn:Hk.
  - apply attributed_Some_handleLine in Hk as (c & Hc & ->).
    unfold handleAttributed. destruct (isCommandComplete _ _ e) as [[b c2] e2].
    unfold streamedLines in *.
    assert (forall c', omap (fun ev => match ev with EStream _ l => Some l | _ => None end)
                         (commandStreamEvents c line ++ callbackEvents c') = []) as Hc0.
    { intros c'. unfold commandStreamEvents, callbackEvents.
      destruct (Command.stream c), (Command.callback c'), (Command.discard c'); done. }
    destruct b; cbn [snd].
    + by rewrite omap_app, Hc0, app_nil_r.
    + specialize (Hc0 (Command.mk "" None None "" false)).
      unfold callbackEvents in Hc0. cbn in Hc0. rewrite app_nil_r in Hc0.
      by rewrite omap_app, Hc0, app_nil_r.
  - by rewrite attributed_None_handleLine.
Qed.

Lemma deliver_streamed (lines : list string) e :
  Forall (fun line => JS.includesLF line = false) lines ->
  streamedLines (deliver lines e).2 = match stream e with Some _ => lines | None => [] end.
Proof.
  intros Hall. revert e. induction Hall as [|l ls Hl _ IH]; intros e.
  - by destruct (stream e).
  - rewrite deliver_cons. cbn [snd]. unfold streamedLines in *. rewrite omap_app.
    rewrite IH, handleMessage_single by done.
    fold (streamedLines (handleLine l e).2). rewrite handleLine_streamed.
    destruct (handleLine_effect l e) as [(_ & -> & _) _]. by destruct (stream e).
Qed.

End Payloads.

Lemma handleMessage_framed (payload : string) (e : Engine) :
  framed e (handleMessage payload e).1.
Proof.
  apply (handleMessage_lines_rel framed); [apply framed_refl|apply framed_trans|].
  intros line e'. apply handleLine_effect.
Qed.

(** X2. Whatever the payload, multi-line ones included, [handleMessage]
    leaves the worker and the stream hook alone, never clears [loaded] or
    [ready], and never adds, reorders or rewrites a command: the texts,
    callbacks and discard flags of the queue afterwards are those of the
    queue before, in the same order, less the commands that completed. *)
Theorem X2_handleMessage_frame (payload : string) (e : Engine) :
  framed e (handleMessage payload e).1
  /\ (length (commandQueue (handleMessage payload e).1) <= length (commandQueue e))%nat.
Proof.
  pose proof (handleMessage_framed payload e) as H.
  split; [done|]. destruct H as (_ & _ & _ & _ & H%sublist_length).
  by rewrite !length_fmap in H.
Qed.

Lemma handleMessage_streamed (payload : string) (e : Engine) :
  streamedLines (handleMessage payload e).2
  = match stream e with Some _ => linesOf payload | None => [] end.
Proof. rewrite handleMessage_linesOf. apply deliver_streamed, linesOf_noLF. Qed.

(** X3. With a stream hook installed, the hook is called with every line
    of the payload, once each and in order, whatever the queue holds and
    whether or not a line is attributed: a payload without line feed is
    one line, a payload with line feeds gives its non-blank pieces. Without
    a hook no such call is made. *)
Theorem X3_stream_hook_sees_every_line (payload : string) (e : Engine) :
  streamedLines (handleMessage payload e).2 = match stream e with Some _ => linesOf payload | None => [] end
  /\ Forall (fun line => JS.includesLF line = false) (linesOf payload).
Proof.
  split; [apply handleMessage_streamed | apply linesOf_noLF].
Qed.

(** X4. [loaded] is set by the line [uciok] and by nothing else, [ready]
    by the line [readyok] and by nothing else: if a payload turns a flag
    on, that line is among the lines of the payload. *)
Theorem X4_flags_set_by_their_lines (payload : string) (e : Engine) :
  (loaded e = false -> loaded (handleMessage payload e).1 = true ->
   "uciok" ∈ linesOf payload)
  /\ (ready e = false -> ready (handleMessage payload e).1 = true ->
      "readyok" ∈ linesOf payload).
Proof.
  rewrite handleMessage_linesOf. pose proof (linesOf_noLF payload) as Hall.
  revert e. induction Hall as [|l ls Hl _ IH]; intros e.
  - rewrite deliver_nil. cbn [fst]. split; congruence.
  - rewrite deliver_cons. cbn [fst]. rewrite handleMessage_single by done.
    destruct (handleLine_effect l e) as (_ & Hlo & Hre).
    destruct (IH (handleLine l e).1) as [IH1 IH2]. split; intros H0 H1.
    + destruct Hlo as [Hlo|[-> _]]; [|by left]. right. apply IH1; congruence.
    + destruct Hre as [Hre|[-> _]]; [|by left]. right. apply IH2; congruence.
Qed.

Lemma X4_witness :
  let e := (send "uci" None None newEngine).1.1 in
  loaded e = false
  /\ loaded (handleMessage (joinLF ["id name Stockfish"; "uciok"]) e).1 = true
  /\ "uciok" ∈ linesOf (joinLF ["id name Stockfish"; "uciok"]).
Proof.
  split; [reflexivity|]. split; [reflexivity|].
  exact (proj1 (X4_flags_set_by_their_lines (joinLF ["id name Stockfish"; "uciok"])
                  (send "uci" None None newEngine).1.1) eq_refl eq_refl).
Defined.

(** ** Sessions *)

Section Sessions.

Implicit Types (e : Engine) (ops : list Op) (op : Op).

Lemma session_acc ops e (evs : list Event) :
  foldl (fun acc op => ((step op acc.1).1, acc.2 ++ (step op acc.1).2)) (e, evs) ops
  = ((session ops e).1, evs ++ (session ops e).2).
Proof.
  unfold session. revert e evs. induction ops as [|op ops IH]; intros e evs; simpl.
  - by rewrite app_nil_r.
  - rewrite (IH _ (evs ++ (step op e).2)), (IH _ (step op e).2).
    cbn [fst snd]. by rewrite app_assoc.
Qed.

Lemma session_cons op ops e :
  session (op :: ops) e
  = ((session ops (step op e).1).1, (step op e).2 ++ (session ops (step op e).1).2).
Proof. unfold session at 1. cbn [foldl fst snd app]. apply session_acc. Qed.

Lemma workerCalls_app (evs evs' : list Event) :
  workerCalls (evs ++ evs') = workerCalls evs ++ workerCalls evs'.
Proof. apply List.filter_app. Qed.

Lemma handleLine_workerCalls (line : string) e : workerCalls (handleLine line e).2 = [].
Proof.
  assert (workerCalls (streamEvents e line) = []) as Hs.
  { unfold streamEvents. by destruct (stream e). }
  assert (forall c, workerCalls (commandStreamEvents c line) = []) as Hc.
  { intros c. unfold commandStreamEvents. by destruct (Command.stream c). }
  assert (forall c, workerCalls (callbackEvents c) = []) as Hb.
  { intros c. unfold callbackEvents.
    by destruct (Command.callback c), (Command.discard c). }
  destruct (attributed line e) as [k|] eqn:Hk.
  - apply attributed_Some_handleLine in Hk as (c & _ & ->).
    unfold handleAttributed. destruct (isCommandComplete _ _ e) as [[b c2] e2].
    destruct b; cbn [snd]; by rewrite !workerCalls_app, ?Hs, ?Hc, ?Hb.
  - by rewrite attributed_None_handleLine.
Qed.

(** Handling a payload makes no call on the worker. *)
Lemma handleMessage_workerCalls (payload : string) e :
  workerCalls (handleMessage payload e).2 = [].
Proof.
  rewrite handleMessage_linesOf. pose proof (linesOf_noLF payload) as Hall.
  revert e. induction Hall as [|l ls Hl _ IH]; intros e; [done|].
  rewrite deliver_cons. cbn [snd].
  by rewrite workerCalls_app, IH, handleMessage_single, handleLine_workerCalls.
Qed.

Lemma send_worker (command : string) (cb st : option Callback) e :
  worker (send command cb st e).1.1 = worker e.
Proof.
  unfold send. cbv zeta.
  destruct (needsQueue _); cbn [worker set_commandQueue];
    destruct (worker e) eqn:Hw; cbn; by rewrite ?Hw.
Qed.

Lemma send_workerCalls (command : string) (cb st : option Callback) e :
  workerCalls (send command cb st e).1.2
  = match worker e with Some _ => [EPostMessage (JS.trim command)] | None => [] end.
Proof.
  unfold send. cbv zeta. destruct (needsQueue _); cbn [worker set_commandQueue];
    by destruct (worker e).
Qed.

Lemma step_send (command : string) (cb st : option Callback) e :
  step (OpSend command cb st) e
  = ((send command cb st e).1.1, (send command cb st e).1.2).
Proof. unfold step. by destruct (send command cb st e) as [[e1 evs] o]. Qed.

Lemma asSent_sublist (q q' : list Command.t) :
  (identity <$> q') `sublist_of` (identity <$> q) ->
  Forall asSent q -> Forall asSent q'.
Proof.
  intros Hsub Hq. unfold asSent in *.
  change (Forall (asSentId ∘ identity) q'). apply Forall_fmap.
  change (Forall (asSentId ∘ identity) q) in Hq. apply Forall_fmap in Hq.
  rewrite Forall_forall in *. intros x Hx. eapply Hq, elem_of_sublist; done.
Qed.

Lemma step_asSent op e :
  Forall asSent (commandQueue e) -> Forall asSent (commandQueue (step op e).1).
Proof.
  intros H. destruct op as [f|command cb st|payload|].
  - done.
  - rewrite step_send. cbn [fst]. unfold send. cbv zeta.
    destruct (needsQueue (JS.trim command)) eqn:Hn;
      destruct (worker _); cbn [fst commandQueue set_commandQueue]; try done.
    all: apply Forall_app; split; [done|]; constructor; [|done].
    all: split; [exact Hn|]; split; [apply trim_idem | reflexivity].
  - cbn [step]. destruct (handleMessage_framed payload e) as (_ & _ & _ & _ & Hsub).
    by apply (asSent_sublist (commandQueue e)).
  - cbn [step]. unfold quit. by destruct (worker e).
Qed.

End Sessions.

Section SessionFacts.

Implicit Types (e : Engine) (ops : list Op).

Lemma step_worker_kept (op : Op) e :
  (match op with OpQuit => false | _ => true end) = true ->
  worker (step op e).1 = worker e.
Proof.
  destruct op as [f|command cb st|payload|]; intros H; try done.
  - rewrite step_send. apply send_worker.
  - cbn [step]. by destruct (handleMessage_framed payload e) as (-> & _).
Qed.

Lemma session_dead ops e :
  worker e = None ->
  workerCalls (session ops e).2 = [] /\ worker (session ops e).1 = None.
Proof.
  revert e. induction ops as [|op ops IH]; intros e Hw; [done|].
  assert (worker (step op e).1 = None /\ workerCalls (step op e).2 = []) as [Hk Hc].
  { destruct op as [f|command cb st|payload|].
    - done.
    - rewrite step_send. cbn [fst snd]. by rewrite send_worker, send_workerCalls, Hw.
    - cbn [step]. rewrite handleMessage_workerCalls.
      by destruct (handleMessage_framed payload e) as (-> & _).
    - cbn [step]. unfold quit. by rewrite Hw. }
  destruct (IH _ Hk) as [IH1 IH2].
  rewrite session_cons. cbn [fst snd]. by rewrite workerCalls_app, Hc, IH1.
Qed.

Lemma session_asSent ops e :
  Forall asSent (commandQueue e) -> Forall asSent (commandQueue (session ops e).1).
Proof.
  revert e. induction ops as [|op ops IH]; intros e H; [done|].
  rewrite session_cons. cbn [fst]. by apply IH, step_asSent.
Qed.

End SessionFacts.

(** X5. While the engine has its worker and [quit] is not called, the
    worker is posted exactly the trimmed texts of the [send] calls, one
    post per call and in the order of the calls, whatever payloads arrive
    and whatever hook is installed in between; nothing else is ever called
    on the worker, and the worker stays. *)
Theorem X5_posts_follow_send_order (ops : list Op) (e : Engine) :
  worker e <> None -> hasQuit ops = false ->
  workerCalls (session ops e).2 = EPostMessage <$> sentTexts ops
  /\ worker (session ops e).1 <> None.
Proof.
  revert e. induction ops as [|op ops IH]; intros e Hw Hq; [done|].
  cbn [hasQuit existsb] in Hq. apply orb_false_iff in Hq as [Hop Hq].
  assert (worker (step op e).1 = worker e) as Hk.
  { apply step_worker_kept. by destruct op. }
  destruct (IH (step op e).1) as [IH1 IH2]; [congruence|done|].
  rewrite session_cons. cbn [fst snd]. rewrite workerCalls_app, IH1. split; [|done].
  destruct op as [f|command cb st|payload|]; try done.
  - rewrite step_send. cbn [snd]. rewrite send_workerCalls.
    by destruct (worker e).
  - cbn [step]. by rewrite handleMessage_workerCalls.
Qed.

Lemma X5_witness :
  workerCalls
    (session [OpSend " uci " None None; OpMessage "uciok";
              OpSend "position startpos" None None; OpSend "go depth 3 " (Some 1%nat) None]
       newEngine).2
  = [EPostMessage "uci"; EPostMessage "position startpos"; EPostMessage "go depth 3"].
Proof.
  refine (proj1 (X5_posts_follow_send_order
                   [OpSend " uci " None None; OpMessage "uciok";
                    OpSend "position startpos" None None;
                    OpSend "go depth 3 " (Some 1%nat) None]
                   newEngine _ eq_refl)).
  discriminate.
Defined.

(** X6. After [quit] nothing reaches the worker any more, whatever the
    caller goes on to do: no text is posted, [terminate] is not called a
    second time, and the engine never gets a worker back. *)
Theorem X6_nothing_reaches_worker_after_quit (ops : list Op) (e : Engine) :
  workerCalls (session ops (quit e).1).2 = []
  /\ worker (session ops (quit e).1).1 = None.
Proof. apply session_dead, quit_worker. Qed.

(** X7. Every command in the queue of an engine that was constructed and
    then only used through its methods is as [send] queued it: its text is
    trimmed, it is not one of the immediate commands, and its discard flag
    is not set, so that its callback is called when it completes. *)
Theorem X7_queue_holds_commands_as_sent (ops : list Op) :
  Forall asSent (commandQueue (session ops newEngine).1).
Proof. by apply session_asSent. Qed.

(** ** Which command gets a line *)

(** X8. A line is only ever attributed to a command that matches its type,
    and then to the earliest such command of the queue; the one exception
    is a head of the queue that is [bench] or [perft], which gets the line
    whatever its type. A system message is attributed to no command. *)
Theorem X8_attribution_is_by_type (line : string) (e : Engine) (k : nat) :
  attributed line e = Some k ->
  isSystemMessage line = false
  /\ exists c,
      commandQueue e !! k = Some c
      /\ ((headIsBenchOrPerft (commandQueue e) = true /\ k = 0%nat)
          \/ (headIsBenchOrPerft (commandQueue e) = false
              /\ matchesType (cmdTypeOf line) c = true
              /\ forall j c', (j < k)%nat -> commandQueue e !! j = Some c' ->
                              matchesType (cmdTypeOf line) c' = false)).
Proof.
  intros (Hs & [c Hc] & Hcase)%attributed_Some. split; [done|].
  exists c. split; [done|]. destruct Hcase as [H|[Hg Hf]]; [by left|]. right.
  apply findIndex_first in Hf as [(x & Hx & Hpx) Hmin].
  assert (x = c) as -> by congruence. done.
Qed.

Lemma X8_witness :
  attributed "readyok" twoGoEngine = None
  /\ attributed "info depth 1" twoGoEngine = Some 0%nat
  /\ isSystemMessage "info depth 1" = false.
Proof.
  split; [reflexivity|]. split; [reflexivity|].
  exact (proj1 (X8_attribution_is_by_type "info depth 1" twoGoEngine 0%nat eq_refl)).
Defined.

(** ** The handshake lines *)

Section Handshake.

Implicit Types (e : Engine) (line : string) (c : Command.t).

(** A line attributed to the first command of its type. *)
Lemma first_match_step line e (pre post : list Command.t) c :
  JS.includesLF line = false ->
  commandQueue e = pre ++ c :: post ->
  isSystemMessage line = false ->
  headIsBenchOrPerft (commandQueue e) = false ->
  Forall (fun x => matchesType (cmdTypeOf line) x = false) pre ->
  matchesType (cmdTypeOf line) c = true ->
  handleMessage line e = handleAttributed line e (length pre) c.
Proof.
  intros Hlf Hq Hs Hg Hpre Hc. rewrite handleMessage_single by done.
  pose proof (attributed_first_match line e pre post c Hq Hs Hg Hpre Hc) as Hk.
  apply attributed_Some_handleLine in Hk as (c0 & Hc0 & ->).
  rewrite Hq, list_lookup_middle in Hc0 by done. by injection Hc0 as <-.
Qed.

Lemma isCommandComplete_uciok c e :
  isCommandComplete "uciok" c e = (true, c, set_loaded true e).
Proof. reflexivity. Qed.

Lemma isCommandComplete_readyok c e :
  isCommandComplete "readyok" c e = (true, c, set_ready true e).
Proof. reflexivity. Qed.

Lemma matchesType_word (t : string) c :
  t <> "other" -> matchesType t c = String.eqb (getFirstWord (Command.cmd c)) t.
Proof.
  intros Ht%String.eqb_neq. unfold matchesType. rewrite Ht. apply orb_false_r.
Qed.

Lemma unmatched_word (t : string) (pre : list Command.t) :
  t <> "other" ->
  Forall (fun x => getFirstWord (Command.cmd x) <> t) pre ->
  Forall (fun x => matchesType t x = false) pre.
Proof.
  intros Ht Hpre. eapply Forall_impl; [exact Hpre|]. intros x Hx. simpl.
  rewrite matchesType_word by done. by apply String.eqb_neq.
Qed.

End Handshake.

(** X9. [uciok] completes the earliest queued command whose first word is
    [uci] (the head of the queue not being [bench] or [perft]): the command
    leaves the queue, [loaded] becomes true, [ready] is untouched, and the
    callback gets the accumulated message, which ends with [uciok]. *)
Theorem X9_uciok_completes_uci (pre post : list Command.t) (c : Command.t) (e : Engine) :
  commandQueue e = pre ++ c :: post ->
  headIsBenchOrPerft (commandQueue e) = false ->
  Forall (fun x => getFirstWord (Command.cmd x) <> "uci") pre ->
  getFirstWord (Command.cmd c) = "uci" ->
  handleMessage "uciok" e
  = (set_loaded true (set_commandQueue (pre ++ post) e),
     streamEvents e "uciok" ++ commandStreamEvents c "uciok"
     ++ callbackEvents (Command.set_message (buildMessage (Command.message c) "uciok") c)).
Proof.
  intros Hq Hg Hpre Hc.
  rewrite (first_match_step "uciok" e pre post c); try done.
  - unfold handleAttributed. rewrite isCommandComplete_uciok.
    cbn [commandQueue set_loaded]. by rewrite Hq, delete_middle.
  - by apply (unmatched_word "uci").
  - change (cmdTypeOf "uciok") with "uci". rewrite matchesType_word, Hc by done. done.
Qed.

Lemma X9_witness :
  handleMessage "uciok" (send "uci" (Some 1%nat) None newEngine).1.1
  = (set_loaded true newEngine, [ECallback 1%nat "uciok"]).
Proof.
  refine (X9_uciok_completes_uci [] [] (Command.mk "uci" (Some 1%nat) None "" false)
            (send "uci" (Some 1%nat) None newEngine).1.1 eq_refl eq_refl _ eq_refl).
  constructor.
Defined.

(** X10. [readyok] completes the earliest queued command whose first word
    is [isready] (the head of the queue not being [bench] or [perft]): the
    command leaves the queue, [ready] becomes true, [loaded] is untouched,
    and the callback gets the accumulated message. *)
Theorem X10_readyok_completes_isready (pre post : list Command.t) (c : Command.t)
    (e : Engine) :
  commandQueue e = pre ++ c :: post ->
  headIsBenchOrPerft (commandQueue e) = false ->
  Forall (fun x => getFirstWord (Command.cmd x) <> "isready") pre ->
  getFirstWord (Command.cmd c) = "isready" ->
  handleMessage "readyok" e
  = (set_ready true (set_commandQueue (pre ++ post) e),
     streamEvents e "readyok" ++ commandStreamEvents c "readyok"
     ++ callbackEvents (Command.set_message (buildMessage (Command.message c) "readyok") c)).
Proof.
  intros Hq Hg Hpre Hc.
  rewrite (first_match_step "readyok" e pre post c); try done.
  - unfold handleAttributed. rewrite isCommandComplete_readyok.
    cbn [commandQueue set_ready]. by rewrite Hq, delete_middle.
  - by apply (unmatched_word "isready").
  - change (cmdTypeOf "readyok") with "isready".
    rewrite matchesType_word, Hc by done. done.
Qed.

Lemma X10_witness :
  handleMessage "readyok"
    (send "isready" (Some 2%nat) None (send "go depth 5" None None newEngine).1.1).1.1
  = (set_ready true (send "go depth 5" None None newEngine).1.1,
     [ECallback 2%nat "readyok"]).
Proof.
  refine (X10_readyok_completes_isready
            [Command.mk "go depth 5" None None "" false] []
            (Command.mk "isready" (Some 2%nat) None "" false)
            (send "isready" (Some 2%nat) None (send "go depth 5" None None newEngine).1.1).1.1
            eq_refl eq_refl _ eq_refl).
  repeat constructor. discriminate.
Defined.

(** ** Commands that collect lines *)

Section Runs.

Implicit Types (e : Engine) (line : string) (c : Command.t).

Lemma deliver_app (ls ls' : list string) e :
  deliver (ls ++ ls') e
  = ((deliver ls' (deliver ls e).1).1, (deliver ls e).2 ++ (deliver ls' (deliver ls e).1).2).
Proof.
  revert e. induction ls as [|l ls IH]; intros e.
  - rewrite deliver_nil. cbn [app fst snd]. by destruct (deliver ls' e).
  - cbn [app]. rewrite !deliver_cons, IH. cbn [fst snd]. by rewrite app_assoc.
Qed.

Lemma deliver_one line e : deliver [line] e = handleMessage line e.
Proof.
  rewrite deliver_cons, deliver_nil. cbn [fst snd]. rewrite app_nil_r.
  by destruct (handleMessage line e).
Qed.

(** Lines that each leave the command pending pile up in its message. *)
Lemma pending_run (P : string -> Prop) (pre post : list Command.t) c :
  (forall l m e, P l ->
     commandQueue e = pre ++ Command.set_message m c :: post ->
     handleMessage l e
     = (set_commandQueue (pre ++ Command.set_message (buildMessage m l) c :: post) e,
        streamEvents e l ++ commandStreamEvents c l)) ->
  forall ls, Forall P ls ->
  forall m e, commandQueue e = pre ++ Command.set_message m c :: post ->
  deliver ls e
  = (set_commandQueue (pre ++ Command.set_message (foldl buildMessage m ls) c :: post) e,
     flat_map (fun l => streamEvents e l ++ commandStreamEvents c l) ls).
Proof.
  intros Hstep ls Hall. induction Hall as [|l ls Hl _ IH]; intros m e Hq.
  - rewrite deliver_nil. cbn [foldl flat_map]. rewrite <- Hq. by destruct e.
  - rewrite deliver_cons, (Hstep l m e Hl Hq). cbn [fst snd foldl flat_map].
    set (e1 := set_commandQueue _ e).
    rewrite (IH (buildMessage m l) e1 eq_refl). subst e1. reflexivity.
Qed.

Lemma set_message_own c : Command.set_message (Command.message c) c = c.
Proof. by destruct c. Qed.

Lemma startsWith_existsb (line : string) (prefixes : list string) :
  existsb (fun prefix => JS.startsWith prefix line) prefixes = false <->
  Forall (fun prefix => JS.startsWith prefix line = false) prefixes.
Proof.
  induction prefixes as [|p ps IH]; cbn [existsb]; [by split|].
  rewrite orb_false_iff, IH. split.
  - intros [H1 H2]. by constructor.
  - intros H. by inversion H.
Qed.

(** [d]: a line of type [other] that is not one of its two closing lines
    leaves it pending. *)
Lemma d_step (pre post : list Command.t) c line (m : string) e :
  Command.cmd c = "d" ->
  Forall (fun x => matchesType "other" x = false) pre ->
  headIsBenchOrPerft (pre ++ c :: post) = false ->
  JS.includesLF line = false -> isSystemMessage line = false ->
  cmdTypeOf line = "other" -> JS.startsWith "bestmove" line = false ->
  JS.startsWith "Legal uci moves" line = false -> JS.startsWith "Key is" line = false ->
  commandQueue e = pre ++ Command.set_message m c :: post ->
  handleMessage line e
  = (set_commandQueue (pre ++ Command.set_message (buildMessage m line) c :: post) e,
     streamEvents e line ++ commandStreamEvents c line).
Proof.
  intros Hc Hpre Hg Hlf Hs Ht Hb H1 H2 Hq.
  rewrite (first_match_step line e pre post (Command.set_message m c)); try done.
  - unfold handleAttributed, isCommandComplete.
    cbn [Command.cmd Command.set_message Command.message].
    assert (line <> "uciok") as ->%String.eqb_neq by (intros ->; discriminate Ht).
    assert (line <> "readyok") as ->%String.eqb_neq by (intros ->; discriminate Ht).
    rewrite Hb, Hc, H1, H2. cbn -[buildMessage].
    rewrite Hq, insert_app_r_alt, Nat.sub_diag by lia. reflexivity.
  - rewrite Hq. destruct pre; [|done]. cbn in *. by rewrite Hc in *.
  - by rewrite Ht.
  - rewrite Ht. unfold matchesType. cbn [Command.cmd Command.set_message]. by rewrite Hc.
Qed.

(** [bench] at the head: a line that is not one of its closing lines leaves
    it pending, a [bestmove] line included. *)
Lemma bench_step (post : list Command.t) c line (m : string) e :
  Command.cmd c = "bench" ->
  JS.includesLF line = false -> isSystemMessage line = false ->
  line <> "uciok" -> line <> "readyok" ->
  Forall (fun prefix => JS.startsWith prefix line = false)
    ["pawn key"; "Nodes/second"; "Unknown command"] ->
  commandQueue e = [] ++ Command.set_message m c :: post ->
  handleMessage line e
  = (set_commandQueue ([] ++ Command.set_message (buildMessage m line) c :: post) e,
     streamEvents e line ++ commandStreamEvents c line).
Proof.
  intros Hc Hlf Hs H1%String.eqb_neq H2%String.eqb_neq Hp%startsWith_existsb Hq.
  rewrite handleMessage_single by done.
  assert (attributed line e = Some 0%nat) as Hk.
  { apply attributed_Some. rewrite Hq. split; [done|]. split; [by eexists|]. left.
    split; [|done]. cbn. by rewrite Hc. }
  apply attributed_Some_handleLine in Hk as (c0 & Hc0 & ->).
  rewrite Hq in Hc0. injection Hc0 as <-.
  unfold handleAttributed, isCommandComplete.
  cbn [Command.cmd Command.set_message Command.message].
  rewrite H1, H2, Hc, Hp, andb_false_r. cbn -[buildMessage]. by rewrite Hq.
Qed.

End Runs.

(** X11. A queued [d] command, the earliest command that takes lines of
    type [other] (the head of the queue not being [bench] or [perft]),
    collects every such line that is not a system message, a [bestmove...]
    line or one of its closing lines, and completes on the first line that
    starts with [Legal uci moves] or [Key is]: its stream function has then
    been called once per line, and its callback is called once with all the
    lines, the closing one included, as accumulated in its message. *)
Theorem X11_d_collects_until_key (pre post : list Command.t) (c : Command.t)
    (lines : list string) (closing : string) (e : Engine) :
  commandQueue e = pre ++ c :: post ->
  Command.cmd c = "d" ->
  Forall (fun x => matchesType "other" x = false) pre ->
  headIsBenchOrPerft (commandQueue e) = false ->
  Forall (fun l => JS.includesLF l = false /\ isSystemMessage l = false
                   /\ cmdTypeOf l = "other" /\ JS.startsWith "bestmove" l = false
                   /\ JS.startsWith "Legal uci moves" l = false
                   /\ JS.startsWith "Key is" l = false) lines ->
  JS.includesLF closing = false ->
  JS.startsWith "Legal uci moves" closing = true \/ JS.startsWith "Key is" closing = true ->
  deliver (lines ++ [closing]) e
  = (set_commandQueue (pre ++ post) e,
     flat_map (fun l => streamEvents e l ++ commandStreamEvents c l) (lines ++ [closing])
     ++ callbackEvents
          (Command.set_message
             (foldl buildMessage (Command.message c) (lines ++ [closing])) c)).
Proof.
  intros Hq Hc Hpre Hg Hlines Hlf Hclose. rewrite Hq in Hg.
  rewrite <- (set_message_own c) in Hq.
  rewrite deliver_app, deliver_one.
  rewrite (pending_run _ pre post c
             (fun l m e' Hl => d_step pre post c l m e' Hc Hpre Hg
                                 (proj1 Hl) (proj1 (proj2 Hl))
                                 (proj1 (proj2 (proj2 Hl)))
                                 (proj1 (proj2 (proj2 (proj2 Hl))))
                                 (proj1 (proj2 (proj2 (proj2 (proj2 Hl)))))
                                 (proj2 (proj2 (proj2 (proj2 (proj2 Hl))))))
             lines Hlines (Command.message c) e Hq).
  cbn [fst snd]. set (m := foldl buildMessage (Command.message c) lines).
  set (e1 := set_commandQueue _ e).
  assert (isSystemMessage closing = false /\ cmdTypeOf closing = "other"
          /\ forall c', Command.cmd c' = "d" ->
                        isCommandComplete closing c' e1 = (true, c', e1)) as (Hs & Ht & Hcc).
  { unfold isCommandComplete.
    destruct Hclose as [[r ->]%startsWith_inv|[r ->]%startsWith_inv].
    - split; [done|]. split; [done|]. intros c' ->.
      by rewrite (startsWith_app "Legal uci moves" r).
    - split; [done|]. split; [done|]. intros c' ->.
      by rewrite (startsWith_app "Key is" r), orb_true_r. }
  rewrite (first_match_step closing e1 pre post (Command.set_message m c)); try done.
  - unfold handleAttributed. rewrite Hcc by done.
    cbn [e1 commandQueue set_commandQueue Command.message Command.set_message].
    rewrite delete_middle.
    rewrite flat_map_app, foldl_app. cbn [flat_map foldl]. rewrite app_nil_r.
    by rewrite <- !app_assoc.
  - cbn [e1 commandQueue set_commandQueue]. rewrite <- Hg.
    destruct pre; [|done]. cbn. by rewrite Hc.
  - by rewrite Ht.
  - rewrite Ht. unfold matchesType. cbn [Command.cmd Command.set_message]. by rewrite Hc.
Qed.

Lemma X11_witness :
  deliver (["Fen: 8/8/8/8/8/8/8/8 w - - 0 1"] ++ ["Key is: 1234"])
    (send "d" (Some 1%nat) None newEngine).1.1
  = (newEngine,
     [ECallback 1%nat
        (joinLF ["Fen: 8/8/8/8/8/8/8/8 w - - 0 1"; "Key is: 1234"])]).
Proof.
  refine (X11_d_collects_until_key [] [] (Command.mk "d" (Some 1%nat) None "" false)
            ["Fen: 8/8/8/8/8/8/8/8 w - - 0 1"] "Key is: 1234"
            (send "d" (Some 1%nat) None newEngine).1.1
            eq_refl eq_refl _ eq_refl _ eq_refl (or_intror eq_refl)).
  - constructor.
  - repeat constructor.
Defined.

(** X12. While a command whose text is exactly [bench] is the head of the
    queue, a line that is not a system message, is not [uciok] or
    [readyok] and does not start with [pawn key], [Nodes/second] or
    [Unknown command] is attributed to it and leaves it pending, whatever
    its type: [info] lines and [bestmove] lines too, a [bestmove] line
    does not complete it. The first line that starts with one of those
    three prefixes completes it, and its callback then gets all the lines,
    that one included, as accumulated. *)
Theorem X12_bench_collects_every_line (post : list Command.t) (c : Command.t)
    (lines : list string) (closing : string) (e : Engine) :
  commandQueue e = c :: post ->
  Command.cmd c = "bench" ->
  Forall (fun l => JS.includesLF l = false /\ isSystemMessage l = false
                   /\ l <> "uciok" /\ l <> "readyok"
                   /\ Forall (fun prefix => JS.startsWith prefix l = false)
                        ["pawn key"; "Nodes/second"; "Unknown command"]) lines ->
  JS.includesLF closing = false ->
  existsb (fun prefix => JS.startsWith prefix closing)
    ["pawn key"; "Nodes/second"; "Unknown command"] = true ->
  deliver (lines ++ [closing]) e
  = (set_commandQueue post e,
     flat_map (fun l => streamEvents e l ++ commandStreamEvents c l) (lines ++ [closing])
     ++ callbackEvents
          (Command.set_message
             (foldl buildMessage (Command.message c) (lines ++ [closing])) c)).
Proof.
  intros Hq Hc Hlines Hlf Hclose.
  change (c :: post) with ([] ++ c :: post) in Hq.
  rewrite <- (set_message_own c) in Hq.
  rewrite deliver_app, deliver_one.
  rewrite (pending_run _ [] post c
             (fun l m e' Hl => bench_step post c l m e' Hc
                                 (proj1 Hl) (proj1 (proj2 Hl))
                                 (proj1 (proj2 (proj2 Hl)))
                                 (proj1 (proj2 (proj2 (proj2 Hl))))
                                 (proj2 (proj2 (proj2 (proj2 Hl)))))
             lines Hlines (Command.message c) e Hq).
  cbn [fst snd app]. set (m := foldl buildMessage (Command.message c) lines).
  set (e1 := set_commandQueue _ e).
  assert (isSystemMessage closing = false
          /\ String.eqb closing "uciok" = false
          /\ String.eqb closing "readyok" = false) as (Hs & H1 & H2).
  { pose proof Hclose as Hp. cbn [existsb] in Hp.
    rewrite !orb_true_iff in Hp.
    destruct Hp as [[r ->]%startsWith_inv|[[r ->]%startsWith_inv|[[r ->]%startsWith_inv|?]]];
      done. }
  rewrite handleMessage_single by done.
  assert (attributed closing e1 = Some 0%nat) as Hk.
  { apply attributed_Some. split; [done|]. split; [by eexists|]. left.
    split; [|done]. cbn. by rewrite Hc. }
  apply attributed_Some_handleLine in Hk as (c0 & Hc0 & ->).
  injection Hc0 as <-.
  unfold handleAttributed, isCommandComplete.
  cbn [Command.cmd Command.set_message Command.message].
  rewrite H1, H2, Hc, Hclose, andb_false_r. cbn -[buildMessage].
  rewrite flat_map_app, foldl_app. cbn [flat_map foldl]. rewrite app_nil_r.
  by rewrite <- !app_assoc.
Qed.

Lemma X12_witness :
  deliver (["info depth 1"; "bestmove e2e4"] ++ ["Nodes/second    : 100"])
    (send "bench" (Some 1%nat) None newEngine).1.1
  = (newEngine,
     [ECallback 1%nat (joinLF ["info depth 1"; "bestmove e2e4"; "Nodes/second    : 100"])]).
Proof.
  refine (X12_bench_collects_every_line [] (Command.mk "bench" (Some 1%nat) None "" false)
            ["info depth 1"; "bestmove e2e4"] "Nodes/second    : 100"
            (send "bench" (Some 1%nat) None newEngine).1.1
            eq_refl eq_refl _ eq_refl eq_refl).
  repeat constructor; discriminate.
Defined.

(** ** The message of a command *)

Section Messages.

Lemma buildMessage_nonempty (m line : string) :
  m <> EmptyString -> buildMessage m line = m +:+ String JS.LF line.
Proof. intros H. unfold buildMessage, JS.truthy. by destruct m. Qed.

Lemma buildMessage_truthy (m line : string) :
  m <> EmptyString -> buildMessage m line <> EmptyString.
Proof. intros H. rewrite buildMessage_nonempty by done. by destruct m. Qed.

Lemma foldl_buildMessage_nonempty (lines : list string) (m : string) :
  m <> EmptyString -> foldl buildMessage m lines = joinLF (m :: lines).
Proof.
  revert m. induction lines as [|l ls IH]; intros m Hm; [done|].
  cbn [foldl]. rewrite IH by by apply buildMessage_truthy.
  rewrite buildMessage_nonempty by done. unfold joinLF. cbn [String.concat].
  destruct ls as [|l' ls]; [done|]. by rewrite append_assoc.
Qed.

Lemma includesLF_app_r (s t : string) :
  JS.includesLF t = true -> JS.includesLF (s +:+ t) = true.
Proof.
  intros H. induction s as [|a s IH]; [done|].
  rewrite append_cons, includesLF_cons, IH. apply orb_true_r.
Qed.

Lemma endsWithLF_includesLF (s : string) :
  endsWithLF s = true -> JS.includesLF s = true.
Proof.
  intros [m ->]%endsWithLF_spec. by apply includesLF_app_r.
Qed.

Lemma endsWithLF_app (s t : string) :
  t <> EmptyString -> endsWithLF (s +:+ t) = endsWithLF t.
Proof.
  intros Ht. induction s as [|a s IH]; [done|].
  rewrite append_cons. cbn [endsWithLF]. rewrite IH.
  destruct (s +:+ t) eqn:Hst; [|done]. by destruct s, t.
Qed.

Lemma append_LF_inj (s t : string) :
  s +:+ String JS.LF EmptyString = t +:+ String JS.LF EmptyString -> s = t.
Proof.
  revert t. induction s as [|a s IH]; intros [|b t] H; try done.
  - injection H as _ H. by destruct t.
  - injection H as _ H. by destruct s.
  - injection H as -> H. f_equal. by apply IH.
Qed.

End Messages.

(** X13. From an empty message, the lines a command receives are
    accumulated as the lines joined by line feeds, provided the first of
    them is not empty; an empty line received first leaves no trace in the
    message. *)
Theorem X13_message_joins_lines (line : string) (lines : list string) :
  (line <> EmptyString ->
   foldl buildMessage EmptyString (line :: lines) = joinLF (line :: lines))
  /\ foldl buildMessage EmptyString (EmptyString :: lines)
     = foldl buildMessage EmptyString lines.
Proof.
  split; [|done]. intros H. cbn [foldl].
  change (buildMessage "" line) with line. by apply foldl_buildMessage_nonempty.
Qed.

Lemma X13_witness :
  foldl buildMessage "" ("info depth 1" :: ["info depth 2"; ""; "bestmove e2e4"])
  = joinLF ["info depth 1"; "info depth 2"; ""; "bestmove e2e4"].
Proof.
  refine (proj1 (X13_message_joins_lines "info depth 1"
                   ["info depth 2"; ""; "bestmove e2e4"]) _).
  discriminate.
Defined.

(** X14. A line without line feed that reaches the pattern test of an
    [eval] command (one that is not [uciok], [readyok] or a [bestmove...]
    line) completes the command exactly when the line is empty and the
    message so far holds [Total Evaluation] followed by at least one more
    character: no non-empty line ever completes [eval] through the
    pattern. *)
Theorem X14_eval_completes_on_empty_line (line : string) (c : Command.t) (e : Engine) :
  Command.cmd c = "eval" ->
  JS.includesLF line = false ->
  line <> "uciok" -> line <> "readyok" -> JS.startsWith "bestmove" line = false ->
  (isCommandComplete line
     (Command.set_message (buildMessage (Command.message c) line) c) e).1.1 = true
  <-> line = EmptyString
      /\ exists before block,
          Command.message c = before +:+ "Total Evaluation" +:+ block
          /\ block <> EmptyString.
Proof.
  intros Hc Hlf H1 H2 H3. rewrite isCommandComplete_eval by done.
  cbn [fst Command.message Command.set_message]. rewrite evalRegex_test_spec.
  set (m := Command.message c). split.
  - intros (before & block & Hbuf & Hblock).
    assert (endsWithLF (buildMessage m line) = true) as Hend.
    { apply endsWithLF_spec. exists (before +:+ "Total Evaluation" +:+ block).
      by rewrite Hbuf, !append_assoc. }
    destruct (decide (m = EmptyString)) as [Hm|Hm].
    { rewrite Hm in Hend. change (buildMessage "" line) with line in Hend.
      apply endsWithLF_includesLF in Hend. congruence. }
    rewrite buildMessage_nonempty in Hend, Hbuf by done.
    destruct (decide (line = EmptyString)) as [->|Hl].
    + split; [done|]. exists before, block. split; [|done].
      apply append_LF_inj. by rewrite Hbuf, !append_assoc.
    + change (m +:+ String JS.LF line) with (m +:+ (String JS.LF EmptyString) +:+ line) in Hend.
      rewrite <- append_assoc, endsWithLF_app in Hend by done.
      apply endsWithLF_includesLF in Hend. congruence.
  - intros (-> & before & block & Hm & Hblock). exists before, block. split; [|done].
    rewrite buildMessage_nonempty.
    + rewrite Hm. by rewrite !append_assoc.
    + rewrite Hm. clear. destruct before; discriminate.
Qed.

Lemma X14_witness :
  (isCommandComplete ""
     (Command.set_message
        (buildMessage "Total Evaluation: 0.12 (white side)" "")
        (Command.mk "eval" (Some 1%nat) None "Total Evaluation: 0.12 (white side)" false))
     newEngine).1.1 = true.
Proof.
  refine (proj2 (X14_eval_completes_on_empty_line ""
                   (Command.mk "eval" (Some 1%nat) None
                      "Total Evaluation: 0.12 (white side)" false)
                   newEngine eq_refl eq_refl _ _ eq_refl) _); try discriminate.
  split; [reflexivity|]. exists "", ": 0.12 (white side)". split; [reflexivity|discriminate].
Defined.

(** ** The move of a [bestmove] result *)

Section BestMove.

Lemma takeWord_app (w rest : string) :
  allWordChars w = true -> takeWord (w +:+ rest) = w +:+ takeWord rest.
Proof.
  induction w as [|a w IH]; [done|]. cbn [allWordChars].
  intros [Ha Hw]%andb_true_iff. rewrite !append_cons. cbn [takeWord].
  by rewrite Ha, IH.
Qed.

Lemma takeWord_allWordChars (s : string) : allWordChars (takeWord s) = true.
Proof.
  induction s as [|a s IH]; [done|]. cbn [takeWord].
  destruct (isWordChar a) eqn:Ha; [|done]. cbn [allWordChars]. by rewrite Ha, IH.
Qed.

Lemma takeWord_prefix (s : string) : exists rest, s = takeWord s +:+ rest.
Proof.
  induction s as [|a s [rest IH]]; [by exists EmptyString|]. cbn [takeWord].
  destruct (isWordChar a).
  - exists rest. rewrite append_cons. by rewrite <- IH.
  - by exists (String a s).
Qed.

Lemma append_nil_r (s : string) : s +:+ EmptyString = s.
Proof. induction s as [|a s IH]; [done|]. by rewrite append_cons, IH. Qed.

Lemma substring_whole (s : string) : String.substring 0 (String.length s) s = s.
Proof. induction s as [|a s IH]; [done|]. cbn. by rewrite IH. Qed.

(** A match of the pattern comes from an occurrence of the literal followed
    by the word. *)
Lemma matchBestmove_occurs (result moveStr : string) :
  matchBestmove result = Some moveStr ->
  moveStr <> EmptyString /\ allWordChars moveStr = true
  /\ exists before after, result = before +:+ "bestmove " +:+ moveStr +:+ after.
Proof.
  induction result as [|a r IH].
  - cbn. discriminate.
  - cbn [matchBestmove]. destruct (matchBestmoveAt (String a r)) as [w|] eqn:Hat.
    + intros [= ->]. unfold matchBestmoveAt in Hat.
      destruct (stripLiteral "bestmove " (String a r)) as [t|] eqn:Ht; [|done].
      apply stripLiteral_spec in Ht.
      destruct (JS.truthy (takeWord t)) eqn:Hw; [|done]. injection Hat as <-.
      split; [by destruct (takeWord t)|]. split; [apply takeWord_allWordChars|].
      destruct (takeWord_prefix t) as [rest Hrest]. exists EmptyString, rest.
      by rewrite Ht, Hrest at 1.
    + intros (H1 & H2 & before & after & ->)%IH. split; [done|]. split; [done|].
      by exists (String a before), after.
Qed.

Lemma matchBestmove_here (s moveStr : string) :
  matchBestmoveAt s = Some moveStr -> matchBestmove s = Some moveStr.
Proof. intros H. destruct s; cbn [matchBestmove]; by rewrite H. Qed.

(** The three parts cut out of the word put together are the word. *)
Lemma substrings_partition (s : string) :
  String.substring 0 2 s +:+ String.substring 2 2 s
  +:+ (if (4 <? String.length s)%nat
       then String.substring 4 (String.length s - 4) s else EmptyString)
  = s.
Proof.
  destruct s as [|a [|b [|c [|d s]]]]; try done.
  destruct s as [|x s]; [done|]. cbn [String.length Nat.ltb Nat.leb].
  replace (S (S (S (S (S (String.length s))))) - 4)%nat with (String.length (String x s))
    by (cbn; lia).
  cbn [String.substring]. change (String.substring 0 (String.length s) s)
    with (String.substring 0 (String.length s) s).
  rewrite !append_cons. cbn [String.length String.substring].
  by rewrite substring_whole.
Qed.

End BestMove.

(** X15. The callback of [makeEngineMove] reads the move back from a
    result of the engine: for a two-character origin, a two-character
    destination and a promotion (possibly none), all made of word
    characters, followed by nothing or by something that starts with a
    non-word character (as in [bestmove e2e4 ponder e7e5]), the move handed
    to the chess library has that origin and destination, and that
    promotion, or none when there is none. *)
Theorem X15_bestmove_round_trip (origin destination promo rest : string) :
  String.length origin = 2%nat -> String.length destination = 2%nat ->
  allWordChars (origin +:+ destination +:+ promo) = true ->
  takeWord rest = EmptyString ->
  engineMoveOf ("bestmove " +:+ origin +:+ destination +:+ promo +:+ rest)
  = Some (mkEngineMove origin destination
            (if JS.truthy promo then Some promo else None)).
Proof.
  intros Ho Hd Hw Hrest.
  destruct origin as [|a [|b [|]]]; try discriminate Ho.
  destruct destination as [|c [|d [|]]]; try discriminate Hd.
  set (moveStr := String a (String b (String c (String d promo)))).
  assert (matchBestmove ("bestmove " +:+ moveStr +:+ rest) = Some moveStr) as Hm.
  { apply matchBestmove_here. unfold matchBestmoveAt.
    rewrite (proj2 (stripLiteral_spec "bestmove " _ (moveStr +:+ rest)) eq_refl).
    rewrite takeWord_app, Hrest, append_nil_r by exact Hw. reflexivity. }
  unfold engineMoveOf.
  change ("bestmove " +:+ String a (String b "") +:+ String c (String d "") +:+ promo +:+ rest)
    with ("bestmove " +:+ moveStr +:+ rest).
  rewrite Hm. f_equal. unfold moveStr. cbn [String.substring String.length].
  destruct promo as [|x promo]; [done|].
  cbn [Nat.ltb Nat.leb JS.truthy String.eqb negb Nat.sub].
  change (String.substring 0 (String.length promo) promo)
    with (String.substring 0 (String.length promo) promo).
  cbn. by rewrite substring_whole.
Qed.

Lemma X15_witness :
  engineMoveOf "bestmove e7e8q ponder d7d5"
  = Some (mkEngineMove "e7" "e8" (Some "q")).
Proof.
  exact (X15_bestmove_round_trip "e7" "e8" "q" " ponder d7d5"
           eq_refl eq_refl eq_refl eq_refl).
Defined.

(** X16. Whatever the result, a move is read from it only where the text
    [bestmove] and a space are followed by a word, and origin, destination
    and promotion are cut out of that word without loss: put together they
    are the word. A result without such a place, like [bestmove (none)],
    gives no move. *)
Theorem X16_bestmove_parts (result : string) (move : EngineMove) :
  engineMoveOf result = Some move ->
  exists before moveStr after,
    result = before +:+ "bestmove " +:+ moveStr +:+ after
    /\ moveStr <> EmptyString /\ allWordChars moveStr = true
    /\ from move +:+ to move +:+ default EmptyString (promotion move) = moveStr
    /\ (String.length (from move) <= 2)%nat /\ (String.length (to move) <= 2)%nat.
Proof.
  unfold engineMoveOf. destruct (matchBestmove result) as [moveStr|] eqn:Hm; [|done].
  intros [= <-]. apply matchBestmove_occurs in Hm as (Hne & Hw & before & after & ->).
  exists before, moveStr, after. cbn [from to promotion].
  split; [done|]. split; [done|]. split; [done|]. split.
  - pose proof (substrings_partition moveStr) as Hp.
    destruct (4 <? String.length moveStr)%nat; exact Hp.
  - clear. split; destruct moveStr as [|a [|b [|c [|d [|x s]]]]]; cbn; lia.
Qed.

Lemma X16_witness :
  engineMoveOf "bestmove (none)" = None
  /\ exists before moveStr after,
      "info depth 1 bestmove a7a8n" = before +:+ "bestmove " +:+ moveStr +:+ after
      /\ "a7" +:+ "a8" +:+ "n" = moveStr.
Proof.
  split; [reflexivity|].
  destruct (X16_bestmove_parts "info depth 1 bestmove a7a8n"
              (mkEngineMove "a7" "a8" (Some "n")) eq_refl)
    as (before & moveStr & after & H1 & _ & _ & H2 & _).
  by exists before, moveStr, after.
Defined.

(** ** The console hook *)

Section Hook.

Import UseStockfish.

Implicit Types (h : UseStockfish.t).

Lemma onStream_fold (lines : list string) h :
  let h' := foldl (fun h line => onStream line h) h lines in
  engineRef h' = engineRef h
  /\ error h' = error h
  /\ output h' = foldl buildMessage (output h) lines
  /\ isLoaded h' = isLoaded h || JS.includes lines "uciok"
  /\ isReady h' = isReady h || JS.includes lines "uciok" || JS.includes lines "readyok".
Proof.
  cbv zeta. revert h. induction lines as [|l ls IH]; intros h.
  - cbn [foldl JS.includes existsb]. by rewrite !orb_false_r.
  - cbn [foldl]. destruct (IH (onStream l h)) as (-> & -> & -> & -> & ->).
    unfold onStream, appendOutput, JS.includes. cbn [existsb].
    rewrite (String.eqb_sym "uciok" l), (String.eqb_sym "readyok" l).
    destruct (String.eqb_spec l "uciok") as [->|H1].
    + cbn [engineRef error output isLoaded isReady orb]. repeat split; try done.
      * by rewrite orb_true_r.
      * by rewrite orb_true_r.
    + destruct (String.eqb_spec l "readyok") as [->|H2];
        cbn [engineRef error output isLoaded isReady orb]; repeat split; try done.
      by rewrite !orb_true_r.
Qed.

End Hook.

(** X17. The console hook guards its engine: once [quit] has run on the
    hook, or before any engine exists, [sendCommand] only records the error
    [Engine not loaded]; it calls nothing on any engine or worker, and the
    hook still has no engine. *)
Theorem X17_hook_send_after_quit (command : string) (callback stream : option Callback)
    (h : UseStockfish.t) :
  let h1 := (UseStockfish.quit h).1 in
  UseStockfish.engineRef h1 = None
  /\ UseStockfish.sendCommand command callback stream h1
     = (UseStockfish.mk None (UseStockfish.isLoaded h1) (UseStockfish.isReady h1)
          (UseStockfish.output h1) (Some "Engine not loaded"),
        []).
Proof.
  cbv zeta. unfold UseStockfish.quit, UseStockfish.sendCommand.
  destruct (UseStockfish.engineRef h) eqn:Hr; cbn [fst UseStockfish.engineRef];
    by rewrite ?Hr.
Qed.

(** X18. Every line the engine streams reaches the console: after a
    payload, the output of the hook is the output before with the lines of
    the payload appended, one per line and in order, whether or not any
    command was waiting for them. The hook is loaded once [uciok] has been
    among the lines and ready once [uciok] or [readyok] has been, even when
    the queue of the engine was empty and its own flags therefore did not
    move. *)
Theorem X18_console_shows_every_line (payload : string) (engine : Engine)
    (h : UseStockfish.t) :
  UseStockfish.engineRef h = Some engine ->
  stream engine <> None ->
  let h' := (UseStockfish.onmessage payload h).1 in
  UseStockfish.output h' = foldl buildMessage (UseStockfish.output h) (linesOf payload)
  /\ UseStockfish.isLoaded h'
     = UseStockfish.isLoaded h || JS.includes (linesOf payload) "uciok"
  /\ UseStockfish.isReady h'
     = UseStockfish.isReady h || JS.includes (linesOf payload) "uciok"
       || JS.includes (linesOf payload) "readyok"
  /\ UseStockfish.engineRef h' = Some (handleMessage payload engine).1.
Proof.
  intros Hr Hs. cbv zeta. unfold UseStockfish.onmessage. rewrite Hr.
  pose proof (handleMessage_streamed payload engine) as Hl.
  destruct (handleMessage payload engine) as [engine' evs]. cbn [fst snd] in *.
  destruct (stream engine); [|done]. rewrite Hl.
  pose proof (onStream_fold (linesOf payload)
                (UseStockfish.mk (Some engine') (UseStockfish.isLoaded h)
                   (UseStockfish.isReady h) (UseStockfish.output h)
                   (UseStockfish.error h))) as (H1 & _ & H3 & H4 & H5).
  by rewrite H1, H3, H4, H5.
Qed.

Lemma X18_witness :
  let h := (UseStockfish.onmessage "uciok"
              (UseStockfish.initializeEngine true UseStockfish.initial).1).1 in
  let h' := (UseStockfish.onmessage (joinLF ["uciok"; ""; "Stockfish 17"]) h).1 in
  UseStockfish.output h' = joinLF ["uciok"; "uciok"; "Stockfish 17"]
  /\ UseStockfish.isLoaded h' = true.
Proof.
  cbv zeta.
  destruct (X18_console_shows_every_line (joinLF ["uciok"; ""; "Stockfish 17"])
              (set_loaded true (set_stream (Some UseStockfish.streamHook) newEngine))
              (UseStockfish.onmessage "uciok"
                 (UseStockfish.initializeEngine true UseStockfish.initial).1).1
              eq_refl ltac:(discriminate)) as (H1 & H2 & _).
  split; [exact H1 | exact H2].
Defined.

(** ** The command history of the console *)

Section History.

Import Console.

Lemma newHistory_unfold (t : string) (prev : list string) :
  newHistory t prev
  = drop (length (filter (fun cmd => cmd <> t) prev) + 1 - 50)
         (filter (fun cmd => cmd <> t) prev ++ [t]).
Proof. unfold newHistory, sliceLast. by rewrite length_app. Qed.

Lemma at_in_range {A} (arr : list A) (i : Z) :
  0 <= i < Z.of_nat (length arr) -> JS.at_ arr i <> None.
Proof.
  intros H. unfold JS.at_. destruct (Z.ltb_spec i 0); [lia|].
  destruct (lookup_lt_is_Some_2 arr (Z.to_nat i) ltac:(lia)) as [x ->]. done.
Qed.

End History.

(** X19. Sending a command puts it last in the history and removes its
    earlier occurrence, keeping everything else: the new history is the old
    one without the command, in its order, followed by the command, cut to
    its last 50 entries. So it is that list itself when the old history
    held fewer than 50 other commands; in general it is the end of that
    list, of length 50 or the whole length if that is less. It ends with
    the command, and has no duplicates if the old history had none. *)
Theorem X19_history_keeps_latest_last (trimmedCommand : string) (prev : list string) :
  let kept := filter (fun cmd => cmd <> trimmedCommand) prev in
  (forall x, x ∈ kept <-> x <> trimmedCommand /\ x ∈ prev)
  /\ kept `sublist_of` prev
  /\ Console.newHistory trimmedCommand prev `suffix_of` (kept ++ [trimmedCommand])
  /\ length (Console.newHistory trimmedCommand prev) = (50 `min` (length kept + 1))%nat
  /\ ((length kept < 50)%nat ->
      Console.newHistory trimmedCommand prev = kept ++ [trimmedCommand])
  /\ last (Console.newHistory trimmedCommand prev) = Some trimmedCommand
  /\ (NoDup prev -> NoDup (Console.newHistory trimmedCommand prev)).
Proof.
  cbv zeta. rewrite newHistory_unfold.
  set (kept := filter (fun cmd => cmd <> trimmedCommand) prev).
  split; [|split; [|split; [|split; [|split; [|split]]]]].
  - intros x. unfold kept. by rewrite list_elem_of_filter.
  - apply sublist_filter.
  - exists (take (length kept + 1 - 50) (kept ++ [trimmedCommand])).
    by rewrite take_drop.
  - rewrite length_drop, length_app. cbn [length]. lia.
  - intros Hlt. replace (length kept + 1 - 50)%nat with 0%nat by lia. apply drop_0.
  - rewrite last_lookup, lookup_drop, length_drop, length_app. cbn [length].
    replace (length kept + 1 - 50 + pred (length kept + 1 - (length kept + 1 - 50)))%nat
      with (length kept + 0)%nat by lia.
    by rewrite lookup_app_r, Nat.add_0_r, Nat.sub_diag by lia.
  - intros Hnd. eapply sublist_NoDup; [|apply sublist_drop].
    apply NoDup_app. split; [by apply NoDup_filter|]. split; [|apply NoDup_singleton].
    intros x [Hx _]%list_elem_of_filter ->%list_elem_of_singleton. done.
Qed.

Lemma X19_witness :
  NoDup ["uci"; "isready"; "d"]
  /\ Console.newHistory "isready" ["uci"; "isready"; "d"] = ["uci"; "d"; "isready"]
  /\ NoDup (Console.newHistory "isready" ["uci"; "isready"; "d"]).
Proof.
  assert (NoDup ["uci"; "isready"; "d"]) as Hnd.
  { apply (bool_decide_unpack _). vm_compute. exact I. }
  pose proof (X19_history_keeps_latest_last "isready" ["uci"; "isready"; "d"])
    as (_ & _ & _ & _ & Heq & _ & Hno).
  split; [exact Hnd|]. split; [|exact (Hno Hnd)].
  refine (Heq _). vm_compute. lia.
Defined.

(** X20. The key handlers of the console keep the history index at -1 or
    inside the history, and the input defined: starting from the empty
    console, the arrow keys and the sending of commands never make the
    input [undefined]. *)
Theorem X20_history_index_in_range (isLoaded : bool) (s : Console.t) :
  Console.inv s ->
  Console.inv (Console.arrowUp s)
  /\ Console.inv (Console.arrowDown s)
  /\ Console.inv (Console.handleSendCommand isLoaded s).1.
Proof.
  unfold Console.inv. intros [Hi Hc]. split; [|split].
  - unfold Console.arrowUp. destruct (Nat.ltb_spec 0 (length (Console.commandHistory s)));
      [|done]. cbn [Console.historyIndex Console.commandHistory Console.command].
    assert (0 <= (if Console.historyIndex s =? -1
                  then Z.of_nat (length (Console.commandHistory s)) - 1
                  else Z.max 0 (Console.historyIndex s - 1))
            < Z.of_nat (length (Console.commandHistory s))) as Hr.
    { destruct (Z.eqb_spec (Console.historyIndex s) (-1)); lia. }
    split; [lia|]. by apply at_in_range.
  - unfold Console.arrowDown. destruct (Z.leb_spec 0 (Console.historyIndex s)); [|done].
    destruct (Z.leb_spec (Z.of_nat (length (Console.commandHistory s)))
                (Console.historyIndex s + 1));
      cbn [Console.historyIndex Console.commandHistory Console.command].
    + split; [lia|done].
    + split; [lia|]. apply at_in_range. lia.
  - unfold Console.handleSendCommand.
    destruct (Console.command s) as [text|] eqn:Ht; [|cbn [fst]; by rewrite Ht].
    destruct (negb (JS.truthy (JS.trim text)) || negb isLoaded);
      [cbn [fst]; by rewrite Ht|].
    cbn [fst Console.historyIndex Console.commandHistory Console.command].
    split; [|done]. rewrite newHistory_unfold, length_drop, length_app. cbn [length]. lia.
Qed.

Lemma X20_witness :
  Console.inv Console.initial
  /\ Console.inv (Console.arrowUp
                    (Console.handleSendCommand true
                       (Console.mk (Some " uci ") [] (-1))).1).
Proof.
  assert (Console.inv Console.initial) as H0 by (split; [cbn; lia | discriminate]).
  assert (Console.inv (Console.mk (Some " uci ") [] (-1))) as H1
    by (split; [cbn; lia | discriminate]).
  split; [exact H0|].
  exact (proj1 (X20_history_index_in_range true _
                  (proj2 (proj2 (X20_history_index_in_range true _ H1))))).
Defined.

(** X21. In the history, ArrowUp followed by ArrowDown comes back to the
    entry one started from, as long as that was not the oldest entry: the
    index is the same and the input shows the entry at that index. From
    the fresh state (index -1) ArrowUp shows the latest command, and
    ArrowDown then clears the input again. *)
Theorem X21_history_up_then_down (s : Console.t) :
  Console.inv s ->
  (0 < Console.historyIndex s ->
   Console.arrowDown (Console.arrowUp s)
   = Console.mk (JS.at_ (Console.commandHistory s) (Console.historyIndex s))
       (Console.commandHistory s) (Console.historyIndex s))
  /\ (Console.historyIndex s = -1 -> Console.commandHistory s <> [] ->
      Console.command (Console.arrowUp s) = last (Console.commandHistory s)
      /\ Console.arrowDown (Console.arrowUp s)
         = Console.mk (Some EmptyString) (Console.commandHistory s) (-1)).
Proof.
  intros [Hi Hc]. unfold Console.arrowUp, Console.arrowDown. split.
  - intros Hpos.
    destruct (Nat.ltb_spec 0 (length (Console.commandHistory s))); [|lia].
    destruct (Z.eqb_spec (Console.historyIndex s) (-1)); [lia|].
    cbn [Console.historyIndex Console.commandHistory].
    replace (Z.max 0 (Console.historyIndex s - 1) + 1) with (Console.historyIndex s) by lia.
    destruct (Z.leb_spec 0 (Z.max 0 (Console.historyIndex s - 1))); [|lia].
    destruct (Z.leb_spec (Z.of_nat (length (Console.commandHistory s)))
                (Console.historyIndex s)); [lia|done].
  - intros -> Hne.
    destruct (Nat.ltb_spec 0 (length (Console.commandHistory s))) as [Hlen|Hlen].
    + change (-1 =? -1) with true. cbv iota.
      cbn [Console.historyIndex Console.commandHistory Console.command]. split.
      * rewrite last_lookup.
        replace (Z.of_nat (length (Console.commandHistory s)) - 1)
          with (Z.of_nat (pred (length (Console.commandHistory s)))) by lia.
        apply at_of_nat.
      * destruct (Z.leb_spec 0 (Z.of_nat (length (Console.commandHistory s)) - 1)); [|lia].
        destruct (Z.leb_spec (Z.of_nat (length (Console.commandHistory s)))
                    (Z.of_nat (length (Console.commandHistory s)) - 1 + 1)); [done|lia].
    + destruct (Console.commandHistory s); [done | cbn in Hlen; lia].
Qed.

Lemma X21_witness :
  Console.arrowDown (Console.arrowUp (Console.mk (Some "d") ["uci"; "isready"; "d"] 2))
  = Console.mk (Some "d") ["uci"; "isready"; "d"] 2.
Proof.
  assert (Console.inv (Console.mk (Some "d") ["uci"; "isready"; "d"] 2)) as Hinv
    by (split; [cbn; lia | discriminate]).
  assert (0 < Console.historyIndex (Console.mk (Some "d") ["uci"; "isready"; "d"] 2))
    as Hpos by (cbn; lia).
  exact (proj1 (X21_history_up_then_down _ Hinv) Hpos).
Defined.

(** ** Whose turn it is *)

(** X22. With the side to move given as [w] or [b], the engine is to move
    for exactly one of the two player colours, the one that is not to
    move; for a player colour that is neither [white] nor [black] it is
    never the engine's turn. *)
Theorem X22_engine_moves_for_one_colour (playerColor currentTurn : string) :
  (currentTurn = "w" \/ currentTurn = "b" ->
   isEnginesTurn "white" currentTurn = negb (isEnginesTurn "black" currentTurn)
   /\ isEnginesTurn "white" currentTurn = String.eqb currentTurn "b")
  /\ (playerColor <> "white" -> playerColor <> "black" ->
      isEnginesTurn playerColor currentTurn = false).
Proof.
  split.
  - by intros [->| ->].
  - intros H1%String.eqb_neq H2%String.eqb_neq. unfold isEnginesTurn. by rewrite H1, H2.
Qed.

Lemma X22_witness :
  isEnginesTurn "white" "b" = negb (isEnginesTurn "black" "b")
  /\ isEnginesTurn "White" "b" = false.
Proof.
  split.
  - exact (proj1 (proj1 (X22_engine_moves_for_one_colour "white" "b") (or_intror eq_refl))).
  - refine (proj2 (X22_engine_moves_for_one_colour "White" "b") _ _); discriminate.
Defined.

(** ** One engine move, end to end *)

Section EngineMove.

Implicit Types (e : Engine) (fen depth : string).

Lemma trim_position fen :
  exists rest, JS.trim ("position fen " +:+ fen) = "position" +:+ rest.
Proof.
  exists (JS.trimEnd (" fen " +:+ fen)). unfold JS.trim.
  change ("position fen " +:+ fen)
    with (String "p" (String "o" (String "s" (String "i" (String "t" (String "i"
            (String "o" (String "n" (" fen " +:+ fen))))))))).
  rewrite trimStart_cons_nonws by reflexivity.
  by rewrite !trimEnd_cons_nonws by reflexivity.
Qed.

Lemma trimEnd_cons_kept (a : ascii) (r : string) :
  JS.trimEnd r <> EmptyString -> JS.trimEnd (String a r) = String a (JS.trimEnd r).
Proof. intros H. cbn [JS.trimEnd]. by destruct (JS.trimEnd r). Qed.

Lemma trim_go depth :
  exists rest, JS.trim ("go depth " +:+ depth) = "go d" +:+ rest.
Proof.
  exists (JS.trimEnd ("epth " +:+ depth)). unfold JS.trim.
  change ("go depth " +:+ depth)
    with (String "g" (String "o" (String " " (String "d" ("epth " +:+ depth))))).
  rewrite trimStart_cons_nonws by reflexivity.
  rewrite !trimEnd_cons_nonws by reflexivity.
  rewrite trimEnd_cons_kept; rewrite trimEnd_cons_nonws by reflexivity; done.
Qed.

Lemma headIsBenchOrPerft_snoc (queue : list Command.t) (c : Command.t) :
  getFirstWord (Command.cmd c) = "go" ->
  headIsBenchOrPerft queue = false -> headIsBenchOrPerft (queue ++ [c]) = false.
Proof.
  intros [r Hc]%firstWord_text Hq. destruct queue; [|done]. cbn. by rewrite Hc.
Qed.

Lemma flat_map_streamEvents (c : Command.t) (lines : list string) e :
  Command.stream c = None ->
  flat_map (fun l => streamEvents e l ++ commandStreamEvents c l) lines
  = flat_map (streamEvents e) lines.
Proof.
  intros Hc. apply flat_map_ext. intros l. unfold commandStreamEvents.
  rewrite Hc. apply app_nil_r.
Qed.

End EngineMove.

(** X23. [makeEngineMove] does nothing, and posts nothing, when the hook
    has no engine, when the engine is not loaded yet or when the game is
    over. Otherwise, on an engine with its worker, no [go] command waiting
    and a head of queue that is not [bench] or [perft]: the hook is
    thinking, the worker is posted the position and then the [go] command,
    only the [go] command is queued, and when the engine has answered with
    [info] lines and a [bestmove] line, the callback of the move is called
    once, with the [bestmove] line alone, and the queue is what it was
    before the call. *)
Theorem X23_engine_move_end_to_end (isGameOver : bool) (fen depth : string)
    (onResult : Callback) (infos : list string) (best : string) (e : Engine)
    (h : UseStockfishEngine.t) :
  (UseStockfishEngine.engineRef h = None
   \/ UseStockfishEngine.engineLoaded h = false \/ isGameOver = true ->
   UseStockfishEngine.makeEngineMove isGameOver fen depth onResult h = (h, []))
  /\ (UseStockfishEngine.engineRef h = Some e ->
      UseStockfishEngine.engineLoaded h = true -> isGameOver = false ->
      worker e <> None ->
      Forall (fun x => getFirstWord (Command.cmd x) <> "go") (commandQueue e) ->
      headIsBenchOrPerft (commandQueue e) = false ->
      Forall (fun l => getFirstWord l = "info" /\ JS.includesLF l = false) infos ->
      getFirstWord best = "bestmove" -> JS.includesLF best = false ->
      let e1 :=
        set_commandQueue
          (commandQueue e
           ++ [Command.mk (JS.trim ("go depth " +:+ depth)) (Some onResult) None "" false])
          e in
      UseStockfishEngine.makeEngineMove isGameOver fen depth onResult h
      = (UseStockfishEngine.mk (Some e1) true true,
         [EPostMessage (JS.trim ("position fen " +:+ fen));
          EPostMessage (JS.trim ("go depth " +:+ depth))])
      /\ deliver (infos ++ [best]) e1
         = (set_commandQueue (commandQueue e) e1,
            flat_map (streamEvents e) (infos ++ [best]) ++ [ECallback onResult best])).
Proof.
  split.
  - unfold UseStockfishEngine.makeEngineMove. intros [Hr|[Hl| ->]].
    + by rewrite Hr.
    + rewrite Hl. by destruct (UseStockfishEngine.engineRef h).
    + rewrite orb_true_r. by destruct (UseStockfishEngine.engineRef h).
  - intros Hr Hl -> Hw Hq Hg Hinfos Hb Hlf. cbv zeta.
    destruct (trim_position fen) as [r1 Hp]. destruct (trim_go depth) as [r2 Hgo].
    set (goCmd := Command.mk (JS.trim ("go depth " +:+ depth)) (Some onResult) None "" false).
    assert (send ("position fen " +:+ fen) None None e
            = (e, [EPostMessage (JS.trim ("position fen " +:+ fen))], Returned)) as Hs1.
    { unfold send. cbv zeta.
      assert (needsQueue (JS.trim ("position fen " +:+ fen)) = false) as ->.
      { apply needsQueue_spec. rewrite Hp. right. right. right. right. left. by exists r1. }
      by destruct (worker e). }
    assert (send ("go depth " +:+ depth) (Some onResult) None e
            = (set_commandQueue (commandQueue e ++ [goCmd]) e,
               [EPostMessage (JS.trim ("go depth " +:+ depth))], Returned)) as Hs2.
    { unfold send. cbv zeta.
      assert (needsQueue (JS.trim ("go depth " +:+ depth)) = true) as ->.
      { rewrite Hgo. reflexivity. }
      cbn [worker set_commandQueue]. by destruct (worker e). }
    split.
    + unfold UseStockfishEngine.makeEngineMove. rewrite Hr, Hl. cbn [negb orb].
      by rewrite Hs1, Hs2.
    + assert (getFirstWord (Command.cmd goCmd) = "go") as Hfw.
      { cbn [goCmd Command.cmd]. rewrite Hgo. reflexivity. }
      rewrite (go_run (commandQueue e) [] Hq infos best goCmd
                 (set_commandQueue (commandQueue e ++ [goCmd]) e)); try done.
      * rewrite app_nil_r, flat_map_streamEvents by done. reflexivity.
      * cbn [commandQueue set_commandQueue]. by apply headIsBenchOrPerft_snoc.
Qed.

Lemma X23_witness :
  let h := UseStockfishEngine.mk (Some newEngine) true false in
  let moved :=
    UseStockfishEngine.makeEngineMove false "8/8/8/8/8/8/8/8 w - - 0 1" "10" 5%nat h in
  UseStockfishEngine.makeEngineMove false "8/8/8/8/8/8/8/8 w - - 0 1" "10" 5%nat
    (UseStockfishEngine.mk (Some newEngine) false false)
  = (UseStockfishEngine.mk (Some newEngine) false false, [])
  /\ moved.2 = [EPostMessage "position fen 8/8/8/8/8/8/8/8 w - - 0 1";
                EPostMessage "go depth 10"]
  /\ deliver (["info depth 1 score cp 30"] ++ ["bestmove g1f3 ponder g8f6"])
       (set_commandQueue [Command.mk "go depth 10" (Some 5%nat) None "" false] newEngine)
     = (newEngine, [ECallback 5%nat "bestmove g1f3 ponder g8f6"]).
Proof.
  cbv zeta. split; [|split; [reflexivity|]].
  - exact (proj1 (X23_engine_move_end_to_end false "8/8/8/8/8/8/8/8 w - - 0 1" "10" 5%nat
                    [] "" newEngine (UseStockfishEngine.mk (Some newEngine) false false))
             (or_intror (or_introl eq_refl))).
  - refine (proj2 (proj2 (X23_engine_move_end_to_end false
                            "8/8/8/8/8/8/8/8 w - - 0 1" "10" 5%nat
                            ["info depth 1 score cp 30"] "bestmove g1f3 ponder g8f6"
                            newEngine (UseStockfishEngine.mk (Some newEngine) true false))
                     eq_refl eq_refl eq_refl _ _ eq_refl _ eq_refl eq_refl)).
    + discriminate.
    + constructor.
    + repeat constructor.
Defined.

(** ** Splitting and joining *)

Section SplitJoin.

Lemma splitLF_nonempty (s : string) : JS.splitLF s <> [].
Proof.
  destruct s as [|a s]; [done|]. cbn [JS.splitLF].
  destruct (Ascii.eqb a JS.LF); [done|]. by destruct (JS.splitLF s).
Qed.

Lemma joinLF_cons (l : string) (ls : list string) :
  ls <> [] -> joinLF (l :: ls) = l +:+ String JS.LF (joinLF ls).
Proof. intros H. unfold joinLF. cbn [String.concat]. by destruct ls. Qed.

Lemma splitLF_line (l rest : string) :
  JS.includesLF l = false ->
  JS.splitLF (l +:+ String JS.LF rest) = l :: JS.splitLF rest.
Proof.
  induction l as [|a l IH]; intros H.
  - change ("" +:+ String JS.LF rest) with (String JS.LF rest). done.
  - rewrite includesLF_cons in H. apply orb_false_iff in H as [Ha Hl].
    rewrite append_cons. cbn [JS.splitLF]. by rewrite Ha, IH.
Qed.

End SplitJoin.

(** X24. Splitting on line feeds and joining with line feeds undo each
    other: joining the pieces of any payload gives the payload back, and
    splitting the join of lines that hold no line feed gives the lines
    back (there being at least one line). So a payload built by joining
    two or more such lines is handled as those lines arriving one after
    the other, the blank ones skipped. *)
Theorem X24_split_join_round_trip (payload : string) (lines : list string) (e : Engine) :
  joinLF (JS.splitLF payload) = payload
  /\ (lines <> [] -> Forall (fun l => JS.includesLF l = false) lines ->
      JS.splitLF (joinLF lines) = lines)
  /\ ((2 <= length lines)%nat -> Forall (fun l => JS.includesLF l = false) lines ->
      handleMessage (joinLF lines) e
      = deliver (List.filter (fun l => JS.truthy (JS.trim l)) lines) e).
Proof.
  assert (forall ls, ls <> [] -> Forall (fun l => JS.includesLF l = false) ls ->
                     JS.splitLF (joinLF ls) = ls) as Hsplit.
  { intros ls Hne Hall. induction Hall as [|l ls Hl Hls IH]; [done|].
    destruct ls as [|l' ls]; [by apply splitLF_single|].
    rewrite joinLF_cons, splitLF_line, IH by done. done. }
  split; [|split].
  - induction payload as [|a s IH]; [done|]. cbn [JS.splitLF].
    destruct (Ascii.eqb_spec a JS.LF) as [->|Ha].
    + rewrite joinLF_cons by apply splitLF_nonempty. by rewrite IH.
    + pose proof (splitLF_nonempty s) as Hne.
      destruct (JS.splitLF s) as [|h t]; [done|].
      destruct t as [|h' t].
      * cbn in IH. by rewrite <- IH.
      * rewrite joinLF_cons in * by done. by rewrite <- IH.
  - exact (Hsplit lines).
  - intros Hlen Hall. rewrite handleMessage_linesOf. unfold linesOf.
    destruct lines as [|l [|l' ls]]; cbn [length] in Hlen; try lia.
    assert (JS.includesLF (joinLF (l :: l' :: ls)) = true) as ->.
    { rewrite joinLF_cons by done. apply includesLF_app_r. apply includesLF_cons. }
    by rewrite Hsplit.
Qed.

Lemma X24_witness :
  JS.splitLF (joinLF ["info depth 1"; ""; "bestmove e2e4"])
  = ["info depth 1"; ""; "bestmove e2e4"].
Proof.
  refine (proj1 (proj2 (X24_split_join_round_trip ""
                          ["info depth 1"; ""; "bestmove e2e4"] newEngine)) _ _).
  - discriminate.
  - repeat constructor.
Defined.

(** ** Commands that never get an answer *)

Section Unanswered.

Implicit Types (e : Engine) (line : string) (c : Command.t).

Lemma unanswerable_unmatched line c :
  unanswerable c = true -> matchesType (cmdTypeOf line) c = false.
Proof.
  unfold unanswerable, JS.includes. cbn [existsb].
  rewrite !andb_true_iff, !negb_true_iff, !orb_false_iff, !String.eqb_neq.
  intros [[(H1 & H2 & H3 & H4 & H5 & H6 & _) _] _].
  destruct (matchesType (cmdTypeOf line) c) eqn:Hm; [|done].
  apply matchesType_spec in Hm.
  destruct (cmdTypeOf_cases line) as [Ht|[Ht|[Ht|Ht]]]; rewrite Ht in Hm;
    destruct Hm as [Hm|[_ [Hm|Hm]]]; congruence.
Qed.

Lemma unanswerable_not_attributed line e (k : nat) c :
  commandQueue e !! k = Some c -> unanswerable c = true -> attributed line e <> Some k.
Proof.
  intros Hc Hu (_ & _ & [[Hg ->]|[_ Hf]])%attributed_Some.
  - destruct (commandQueue e) as [|c0 q]; [done|]. injection Hc as ->.
    unfold unanswerable in Hu. cbn [headIsBenchOrPerft] in Hg.
    apply andb_true_iff in Hu as [[_ H1%negb_true_iff]%andb_true_iff H2%negb_true_iff].
    by rewrite H1, H2 in Hg.
  - apply findIndex_first in Hf as [(x & Hx & Hpx) _].
    assert (x = c) as -> by congruence.
    by rewrite unanswerable_unmatched in Hpx.
Qed.

Lemma unanswerable_stays_line line e c :
  JS.includesLF line = false -> c ∈ commandQueue e -> unanswerable c = true ->
  c ∈ commandQueue (handleMessage line e).1.
Proof.
  intros Hlf [k Hk]%list_elem_of_lookup_1 Hu.
  destruct (unattributed_stays line e k c Hlf Hk) as (j & _ & Hj).
  - by apply unanswerable_not_attributed with c.
  - by apply list_elem_of_lookup_2 in Hj.
Qed.

Lemma unanswerable_stays_step (op : Op) e c :
  c ∈ commandQueue e -> unanswerable c = true -> c ∈ commandQueue (step op e).1.
Proof.
  intros Hc Hu. destruct op as [f|command cb st|payload|].
  - done.
  - rewrite step_send. cbn [fst]. unfold send. cbv zeta.
    destruct (needsQueue _); destruct (worker _);
      cbn [fst commandQueue set_commandQueue]; try done; apply elem_of_app; by left.
  - cbn [step]. rewrite handleMessage_linesOf.
    pose proof (linesOf_noLF payload) as Hall. revert e Hc.
    induction Hall as [|l ls Hl _ IH]; intros e Hc; [done|].
    rewrite deliver_cons. cbn [fst]. apply IH. by apply unanswerable_stays_line.
  - cbn [step]. unfold quit. by destruct (worker e).
Qed.

End Unanswered.

Section UnansweredEvents.

Implicit Types (e : Engine) (line : string) (c : Command.t) (f : Callback).

(** A call of a command function comes from the command the line is
    attributed to. *)
Lemma line_calls_attributed line e f (ev : Event) :
  JS.includesLF line = false ->
  ev ∈ (handleMessage line e).2 -> callsCommandFunction f ev ->
  exists k c, attributed line e = Some k /\ commandQueue e !! k = Some c
              /\ (Command.callback c = Some f \/ Command.stream c = Some f).
Proof.
  intros Hlf Hin Hev.
  assert (ev ∉ streamEvents e line) as Hs.
  { unfold streamEvents. destruct (stream e);
      [intros ->%list_elem_of_singleton; done | apply not_elem_of_nil]. }
  destruct (handleMessage_events line e Hlf) as [[_ He]|(k & c & c' & Hk & Hc & Hcb & He)].
  - rewrite He in Hin. done.
  - exists k, c. split; [done|]. split; [done|].
    assert (ev ∈ commandStreamEvents c line ++ callbackEvents c') as Hin'.
    { destruct He as [He|He]; rewrite He in Hin;
        apply elem_of_app in Hin as [Hin|Hin]; try done.
      apply elem_of_app. by left. }
    apply elem_of_app in Hin' as [Hin'|Hin'].
    + right. unfold commandStreamEvents in Hin'.
      destruct (Command.stream c); [|by apply not_elem_of_nil in Hin'].
      apply list_elem_of_singleton in Hin' as ->. cbn in Hev. by subst.
    + left. unfold callbackEvents in Hin'. rewrite Hcb in Hin'.
      destruct (Command.callback c); [|by apply not_elem_of_nil in Hin'].
      destruct (Command.discard c'); [by apply not_elem_of_nil in Hin'|].
      apply list_elem_of_singleton in Hin' as ->. cbn in Hev. by subst.
Qed.

Lemma onlyUnanswerable_line line e f :
  JS.includesLF line = false ->
  Forall (onlyUnanswerable f) (commandQueue e) ->
  Forall (onlyUnanswerable f) (commandQueue (handleMessage line e).1)
  /\ forall ev, ev ∈ (handleMessage line e).2 -> ~ callsCommandFunction f ev.
Proof.
  intros Hlf Hq. split.
  - rewrite handleMessage_single by done.
    destruct (handleLine_effect line e) as [(_ & _ & _ & _ & Hsub) _].
    rewrite Forall_forall in *. intros c' Hc'.
    assert (identity c' ∈ identity <$> commandQueue e) as Hid.
    { eapply elem_of_sublist; [|exact Hsub]. by apply list_elem_of_fmap_2. }
    apply list_elem_of_fmap in Hid as (c0 & Hid & Hc0).
    specialize (Hq c0 Hc0). unfold onlyUnanswerable, unanswerable, identity in *.
    injection Hid as -> -> -> _. exact Hq.
  - intros ev Hin Hev.
    destruct (line_calls_attributed line e f ev Hlf Hin Hev) as (k & c & Hk & Hc & Hf).
    rewrite Forall_forall in Hq.
    pose proof (Hq c (list_elem_of_lookup_2 _ _ _ Hc) Hf) as Hu.
    by apply (unanswerable_not_attributed line e k c).
Qed.

Lemma send_queue (command : string) (cb st : option Callback) e :
  commandQueue (send command cb st e).1.1
  = if needsQueue (JS.trim command)
    then commandQueue e ++ [Command.mk (JS.trim command) cb st "" false]
    else commandQueue e.
Proof.
  unfold send. cbv zeta.
  destruct (needsQueue _); cbn [worker set_commandQueue]; by destruct (worker e).
Qed.

Lemma send_events (command : string) (cb st : option Callback) e :
  (send command cb st e).1.2
  = match worker e with Some _ => [EPostMessage (JS.trim command)] | None => [] end.
Proof.
  unfold send. cbv zeta.
  destruct (needsQueue _); cbn [worker set_commandQueue]; by destruct (worker e).
Qed.

Lemma onlyUnanswerable_step (op : Op) e f :
  Forall (onlyUnanswerable f) (commandQueue e) -> sendsOnlyUnanswerable f op ->
  Forall (onlyUnanswerable f) (commandQueue (step op e).1)
  /\ forall ev, ev ∈ (step op e).2 -> ~ callsCommandFunction f ev.
Proof.
  intros Hq Hop. destruct op as [g|command cb st|payload|].
  - split; [done|]. by intros ev ?%not_elem_of_nil.
  - rewrite step_send. cbn [fst snd]. rewrite send_queue, send_events. split.
    + destruct (needsQueue _); [|done]. apply Forall_app. split; [done | by constructor].
    + intros ev Hin. destruct (worker e); [|by apply not_elem_of_nil in Hin].
      apply list_elem_of_singleton in Hin as ->. by intros [].
  - cbn [step]. rewrite handleMessage_linesOf.
    pose proof (linesOf_noLF payload) as Hall. revert e Hq.
    induction Hall as [|l ls Hl _ IH]; intros e Hq.
    + split; [done|]. by intros ev ?%not_elem_of_nil.
    + rewrite deliver_cons. cbn [fst snd].
      destruct (onlyUnanswerable_line l e f Hl Hq) as [Hq1 He1].
      destruct (IH _ Hq1) as [Hq2 He2]. split; [done|].
      intros ev [Hin|Hin]%elem_of_app; [by apply He1 | by apply He2].
  - cbn [step]. unfold quit. destruct (worker e); cbn [fst snd]; split; try done.
    + intros ev ->%list_elem_of_singleton. by intros [].
    + by intros ev ?%not_elem_of_nil.
Qed.

End UnansweredEvents.

(** X25. A queued command whose first word is none of [uci], [isready],
    [go], [other], [d], [eval], and whose text is not exactly [bench] or
    [perft] (for instance [bench 16], or any command the engine does not
    know), is never attributed a line: [determineQueueIndex] only finds
    commands by those first words or at a [bench]/[perft] head. Such a
    command never completes: whatever is sent, arrives or is quit
    afterwards, it is still in the queue, with its message as it was. And
    a function that is given to such commands only, as callback or as
    stream function, is never called. *)
Theorem X25_unanswerable_command_stays (c : Command.t) (ops : list Op) (e : Engine) :
  c ∈ commandQueue e -> unanswerable c = true ->
  c ∈ commandQueue (session ops e).1
  /\ (forall line k, commandQueue e !! k = Some c -> attributed line e <> Some k)
  /\ (forall f,
        Forall (onlyUnanswerable f) (commandQueue e) ->
        Forall (sendsOnlyUnanswerable f) ops ->
        forall ev, ev ∈ (session ops e).2 -> ~ callsCommandFunction f ev).
Proof.
  intros Hc Hu. split; [|split].
  - revert e Hc. induction ops as [|op ops IH]; intros e Hc; [done|].
    rewrite session_cons. cbn [fst]. by apply IH, unanswerable_stays_step.
  - intros line k Hk. by apply unanswerable_not_attributed with c.
  - intros f Hq Hops. clear Hc. revert e Hq.
    induction Hops as [|op ops Hop _ IH]; intros e Hq ev Hin.
    + by apply not_elem_of_nil in Hin.
    + rewrite session_cons in Hin. cbn [snd] in Hin.
      destruct (onlyUnanswerable_step op e f Hq Hop) as [Hq1 He1].
      apply elem_of_app in Hin as [Hin|Hin]; [by apply He1 | by apply (IH _ Hq1)].
Qed.

Lemma X25_witness :
  let c := Command.mk "bench 16" (Some 1%nat) None "" false in
  let ops := [OpMessage "Nodes/second    : 100"; OpMessage "Unknown command";
              OpSend "isready" (Some 2%nat) None; OpMessage "readyok"] in
  let e := (send "bench 16" (Some 1%nat) None newEngine).1.1 in
  c ∈ commandQueue (session ops e).1
  /\ (session ops e).2 = [EPostMessage "isready"; ECallback 2%nat "readyok"]
  /\ ~ callsCommandFunction 1%nat (ECallback 2%nat "readyok").
Proof.
  cbv zeta.
  pose proof (X25_unanswerable_command_stays
                (Command.mk "bench 16" (Some 1%nat) None "" false)
                [OpMessage "Nodes/second    : 100"; OpMessage "Unknown command";
                 OpSend "isready" (Some 2%nat) None; OpMessage "readyok"]
                (send "bench 16" (Some 1%nat) None newEngine).1.1
                ltac:(by left) eq_refl) as (H1 & _ & H3).
  split; [exact H1|]. split; [reflexivity|].
  refine (H3 1%nat _ _ (ECallback 2%nat "readyok") _).
  - repeat constructor.
  - repeat constructor; intros [H|H]; discriminate H.
  - right. by left.
Defined.
